(** * FlowGraph verifier: a shallow embedding of the CLI's verification core

    The development follows the layout of the command-line program:
    string helpers of the host language, the small regular-expression
    fragment the verifier builds its patterns from, the location resolver,
    the per-kind node verifiers, the edge, flow and invariant verifiers, the
    impact query and the result aggregation.

    Modelling conventions.
    - Source text and identifiers are [string]s of 8-bit characters; the
      character classes [\s], [\w], [\d] and [.] are the ASCII ones.
    - A parsed JSON object used as a table is an association list in
      enumeration order with unique keys; [obj_get] and [has_key] look at
      the table's own keys.  The program's [o[key]] also finds the names
      every object inherits from its prototype ([inherited]); the
      statements that rest on a lookup failing, or on a kind having no
      verifier, are stated for names that are not inherited.
    - The file system is a function from resolved paths to optional
      contents, and path resolution is a parameter of the development.
    - The global append-only [results] array is modelled by letting every
      verifier return the records it pushes, in push order. *)

From Stdlib Require Import String Ascii List Bool Arith Lia Permutation.
From Stdlib Require Import DecimalString Decimal.
From Stdlib Require Import Sorted.
From Stdlib Require DecimalNat.
From Stdlib Require Import NArith.
Import ListNotations.
Open Scope string_scope.

(* ------------------------------------------------------------------ *)
(** ** Host-language string operations *)

Module JsString.

(** [s.includes(pat)] *)
Fixpoint includes (pat s : string) : bool :=
  if prefix pat s then true
  else match s with
       | EmptyString => false
       | String _ s' => includes pat s'
       end.

(** [s.split(c)] for a one-character separator; never the empty list. *)
Fixpoint split_on (c : ascii) (s : string) : list string :=
  match s with
  | EmptyString => [EmptyString]
  | String a s' =>
      if Ascii.eqb a c then EmptyString :: split_on c s'
      else match split_on c s' with
           | [] => [String a EmptyString]
           | seg :: rest => String a seg :: rest
           end
  end.

(** [parts.join(sep)] *)
Definition join (sep : string) (parts : list string) : string :=
  String.concat sep parts.

Fixpoint drop (n : nat) (s : string) : string :=
  match n, s with
  | O, _ => s
  | S n', String _ s' => drop n' s'
  | S _, EmptyString => EmptyString
  end.

(** [s.replace(pat, rep)] with a string pattern: first occurrence only. *)
Fixpoint replace (pat rep s : string) : string :=
  if prefix pat s then rep ++ drop (String.length pat) s
  else match s with
       | EmptyString => EmptyString
       | String a s' => String a (replace pat rep s')
       end.

(** [s.indexOf(c)] for a one-character needle. *)
Fixpoint indexOf (c : ascii) (s : string) : option nat :=
  match s with
  | EmptyString => None
  | String a s' =>
      if Ascii.eqb a c then Some 0 else option_map S (indexOf c s')
  end.

Definition is_digit (c : ascii) : bool :=
  let n := nat_of_ascii c in ((48 <=? n) && (n <=? 57))%nat.

Definition is_upper (c : ascii) : bool :=
  let n := nat_of_ascii c in ((65 <=? n) && (n <=? 90))%nat.

Definition is_lower (c : ascii) : bool :=
  let n := nat_of_ascii c in ((97 <=? n) && (n <=? 122))%nat.

Definition lower_char (c : ascii) : ascii :=
  if is_upper c then ascii_of_nat (nat_of_ascii c + 32) else c.

Definition upper_char (c : ascii) : ascii :=
  if is_lower c then ascii_of_nat (nat_of_ascii c - 32) else c.

(** [s.toLowerCase()] *)
Fixpoint toLowerCase (s : string) : string :=
  match s with
  | EmptyString => EmptyString
  | String a s' => String (lower_char a) (toLowerCase s')
  end.

Fixpoint all_chars (p : ascii -> bool) (s : string) : bool :=
  match s with
  | EmptyString => true
  | String a s' => p a && all_chars p s'
  end.

(** [/^\d+$/.test(s)] *)
Definition is_numeric (s : string) : bool :=
  negb (String.eqb s "") && all_chars is_digit s.

(** [parseInt(s, 10)] on a string of decimal digits (exact below 2^53). *)
Fixpoint parse_digits (acc : nat) (s : string) : nat :=
  match s with
  | EmptyString => acc
  | String a s' =>
      if is_digit a then parse_digits (10 * acc + (nat_of_ascii a - 48)) s'
      else acc
  end.

Definition parseInt (s : string) : nat := parse_digits 0 s.

(** Decimal rendering of a number inside a template string. *)
Definition string_of_nat (n : nat) : string :=
  NilEmpty.string_of_uint (Nat.to_uint n).

(** Truthiness of a string value. *)
Definition truthy (s : string) : bool := negb (String.eqb s "").

(** Truthiness of an optional (possibly undefined) string property. *)
Definition truthy_opt (o : option string) : bool :=
  match o with
  | Some s => truthy s
  | None => false
  end.

(** Insertion into a list sorted by code-unit order, for [Array.sort]. *)
Fixpoint insert_sorted (x : string) (l : list string) : list string :=
  match l with
  | [] => [x]
  | y :: l' => if String.leb x y then x :: l else y :: insert_sorted x l'
  end.

(** [ids.sort()] with the default comparison. *)
Definition sort (l : list string) : list string :=
  fold_right insert_sorted [] l.

End JsString.

(* ------------------------------------------------------------------ *)
(** ** The regular-expression fragment used by the verifier

    Every quantifier [*] or [+] in the program's patterns applies to a
    single character class, and [?] to a group; the abstract syntax below
    covers exactly that fragment, so the matcher is structurally recursive.
    Only [RegExp.prototype.test] is needed: whether some match exists. *)

Module Re.

Inductive re : Type :=
| Eps
| Chr (p : ascii -> bool)
| Seq (a b : re)
| Alt (a b : re)
| StarC (p : ascii -> bool)
| WordB.

Definition is_word (c : ascii) : bool :=
  JsString.is_digit c || JsString.is_upper c || JsString.is_lower c
  || Ascii.eqb c "_"%char.

Definition is_space (c : ascii) : bool :=
  let n := nat_of_ascii c in
  ((n =? 32) || ((9 <=? n) && (n <=? 13)))%nat.

(** [.] without the [s] flag *)
Definition is_dot (c : ascii) : bool :=
  let n := nat_of_ascii c in
  negb ((n =? 10) || (n =? 13))%nat.

Definition is_quote (c : ascii) : bool :=
  Ascii.eqb c "'"%char || Ascii.eqb c "034"%char || Ascii.eqb c "`"%char.

Definition opt_word (o : option ascii) : bool :=
  match o with
  | Some c => is_word c
  | None => false
  end.

Definition next_char (s : string) : option ascii :=
  match s with
  | EmptyString => None
  | String c _ => Some c
  end.

(** [\b]: exactly one side is a word character. *)
Definition at_boundary (prev : option ascii) (s : string) : bool :=
  xorb (opt_word prev) (opt_word (next_char s)).

(** Zero or more characters of class [p], then the continuation. *)
Fixpoint star_loop (p : ascii -> bool) (k : option ascii -> string -> bool)
         (prev : option ascii) (s : string) : bool :=
  if k prev s then true
  else match s with
       | EmptyString => false
       | String c s' => if p c then star_loop p k (Some c) s' else false
       end.

(** Match [r] at the head of [s], [prev] being the character before it. *)
Fixpoint matchk (r : re) (prev : option ascii) (s : string)
         (k : option ascii -> string -> bool) : bool :=
  match r with
  | Eps => k prev s
  | Chr p =>
      match s with
      | EmptyString => false
      | String c s' => if p c then k (Some c) s' else false
      end
  | Seq a b => matchk a prev s (fun prev' s' => matchk b prev' s' k)
  | Alt a b => if matchk a prev s k then true else matchk b prev s k
  | StarC p => star_loop p k prev s
  | WordB => if at_boundary prev s then k prev s else false
  end.

Fixpoint search (r : re) (prev : option ascii) (s : string) : bool :=
  if matchk r prev s (fun _ _ => true) then true
  else match s with
       | EmptyString => false
       | String c s' => search r (Some c) s'
       end.

(** [r.test(s)] *)
Definition test (r : re) (s : string) : bool := search r None s.

(** Pattern constructors. *)
Definition opt (r : re) : re := Alt r Eps.
Definition plusC (p : ascii -> bool) : re := Seq (Chr p) (StarC p).

(** A literal: what [esc(name)] spliced into a pattern source matches. *)
Fixpoint lit (s : string) : re :=
  match s with
  | EmptyString => Eps
  | String c s' => Seq (Chr (Ascii.eqb c)) (lit s')
  end.

(** A literal under the [i] flag. *)
Fixpoint lit_ci (s : string) : re :=
  match s with
  | EmptyString => Eps
  | String c s' =>
      Seq (Chr (fun x => Ascii.eqb (JsString.upper_char x)
                                   (JsString.upper_char c)))
          (lit_ci s')
  end.

Fixpoint alts (rs : list re) : re :=
  match rs with
  | [] => Chr (fun _ => false)
  | [r] => r
  | r :: rs' => Alt r (alts rs')
  end.

Fixpoint seqs (rs : list re) : re :=
  match rs with
  | [] => Eps
  | r :: rs' => Seq r (seqs rs')
  end.

End Re.

(* ------------------------------------------------------------------ *)
(** ** Data model: the loaded document *)

(** A parsed JSON object used as a table: entries in enumeration order. *)
Definition obj (V : Type) : Type := list (string * V).

Fixpoint obj_get {V : Type} (o : obj V) (key : string) : option V :=
  match o with
  | [] => None
  | (k, v) :: o' => if String.eqb k key then Some v else obj_get o' key
  end.

Definition is_nil {A : Type} (l : list A) : bool :=
  match l with
  | [] => true
  | _ :: _ => false
  end.

Definition keys {V : Type} (o : obj V) : list string := map fst o.
Definition obj_values {V : Type} (o : obj V) : list V := map snd o.

(** Truthiness of [o[key]] when the stored values are objects. *)
Definition has_key {V : Type} (o : obj V) (key : string) : bool :=
  match obj_get o key with
  | Some _ => true
  | None => false
  end.

(** The property names that every plain object inherits from
    [Object.prototype].  For such a name [o[name]] is truthy even when
    [name] is not a key of [o], so a lookup of it never fails. *)
Definition inherited_names : list string :=
  ["constructor"; "toString"; "toLocaleString"; "valueOf"; "hasOwnProperty";
   "isPrototypeOf"; "propertyIsEnumerable"; "__proto__";
   "__defineGetter__"; "__defineSetter__"; "__lookupGetter__";
   "__lookupSetter__"].

Definition inherited (name : string) : bool :=
  existsb (String.eqb name) inherited_names.

(** None of the names is inherited: on these names own-key lookup is the
    program's lookup. *)
Definition plain_names (names : list string) : bool :=
  forallb (fun name => negb (inherited name)) names.

Record Node : Type := {
  kind : string;
  loc : string;
  schema : option string;
  values : option (list string);
  fk : option (list string)
}.

Record Edge : Type := {
  from : string;
  to : string;
  rel : string;
  note : option string;
  _comment : option string
}.

(** The [then] field of a step: a string (keyword or jump) or a mapping
    from condition labels to targets. *)
Inductive Then : Type :=
| ThenStr (target : string)
| ThenBranch (branches : obj string).

Record Step : Type := {
  node : string;
  then_ : Then
}.

Record Flow : Type := {
  trigger : string;
  steps : list Step
}.

Record Invariant : Type := {
  inv_id : string;
  rule : string;
  scope : list string;
  enforce : option string
}.

Record Flowgraph : Type := {
  meta_name : string;
  meta_root : string;
  nodes : obj Node;
  edges : list Edge;
  flows : obj Flow;
  invariants : list Invariant
}.

(** ** Result records *)

Inductive Status : Type := PASS | FAIL | WARN.

Inductive Category : Type := structural | relational | flow | invariant.

Record Result : Type := {
  status : Status;
  id : string;
  category : Category;
  message : string
}.

Definition Status_eqb (a b : Status) : bool :=
  match a, b with
  | PASS, PASS | FAIL, FAIL | WARN, WARN => true
  | _, _ => false
  end.

Definition Category_eqb (a b : Category) : bool :=
  match a, b with
  | structural, structural | relational, relational
  | flow, flow | invariant, invariant => true
  | _, _ => false
  end.

(** The record that [record(status, category, id, message)] pushes. *)
Definition record (st : Status) (cat : Category) (i msg : string) : Result :=
  {| status := st; id := i; category := cat; message := msg |}.

(** ** Helpers *)

(** The first three statements of [resolveLoc]: the path part and the
    optional line part of a location string. *)
Definition locParts (l : string) : string * option string :=
  let parts := JsString.split_on ":" l in
  if (1 <? List.length parts)%nat && JsString.is_numeric (last parts "")
  then (JsString.join ":" (removelast parts), Some (last parts ""))
  else (JsString.join ":" parts, None).

(** A pattern handed to [has]: a plain string or a regular expression. *)
Inductive pattern : Type :=
| PStr (s : string)
| PRe (r : Re.re).

Definition has (source : string) (p : pattern) : bool :=
  match p with
  | PStr s => JsString.includes s source
  | PRe r => Re.test r source
  end.

Definition lines_slice (start stop : nat) (lines : list string) : list string :=
  skipn start (firstn stop lines).

(** [getRegion(source, lineNum, radius)]; every caller passes a line number
    of at least 1, where the truncated subtractions below are the integer
    ones clamped at 0 by [Math.max]. *)
Definition getRegion (source : string) (lineNum radius : nat) : string :=
  let lines := JsString.split_on "010" source in
  let start := lineNum - 1 - radius in
  let stop := Nat.min (List.length lines) (lineNum - 1 + radius) in
  JsString.join (String "010" "") (lines_slice start stop lines).

(** Truthiness of an optional number ([undefined] and 0 are falsy). *)
Definition truthy_line (l : option nat) : option nat :=
  match l with
  | Some 0 => None
  | Some n => Some n
  | None => None
  end.

Fixpoint take_while (p : ascii -> bool) (s : string) : string :=
  match s with
  | EmptyString => EmptyString
  | String c s' => if p c then String c (take_while p s') else EmptyString
  end.

(** [fk.match(/-> (\w+)/)]: the first capture group of the leftmost match,
    the longest run of word characters after the arrow. *)
Fixpoint fk_match (s : string) : option string :=
  match s with
  | EmptyString => None
  | String _ s' =>
      if prefix "-> " s && Re.opt_word (Re.next_char (JsString.drop 3 s))
      then Some (take_while Re.is_word (JsString.drop 3 s))
      else fk_match s'
  end.

Definition em_dash : string :=
  String "226" (String "128" (String "148" "")).

(* ------------------------------------------------------------------ *)
(** ** The patterns built by the verifiers *)

Module Patterns.
Import Re.

Definition sp_plus : re := plusC is_space.
Definition sp_star : re := StarC is_space.
Definition lits (l : list string) : re := alts (map lit l).

Definition binding_kw : re :=
  lits ["const"; "export const"; "let"; "var"].

(** [[:\(\b]]: inside a class, [\b] is the backspace character. *)
Definition colon_paren_bs (c : ascii) : bool :=
  Ascii.eqb c ":" || Ascii.eqb c "(" || Ascii.eqb c "008".

Definition lt_or_paren (c : ascii) : bool :=
  Ascii.eqb c "<" || Ascii.eqb c "(".

Definition typePatterns (typeName : string) : list pattern :=
  [ PRe (seqs [lits ["interface"; "type"; "enum"; "class"; "struct"];
               sp_plus; lit typeName; WordB]);
    PRe (seqs [binding_kw; sp_plus; lit typeName; lit "Schema";
               sp_star; lit "="]);
    PRe (seqs [binding_kw; sp_plus; lit typeName; sp_star; lit "="]);
    PRe (seqs [lits ["def"; "class"]; sp_plus; lit typeName;
               Chr colon_paren_bs]) ].

Definition async_opt : re := opt (Seq (lit "async") sp_plus).

Definition methodPatterns (methodName : string) : list pattern :=
  [ PRe (seqs [async_opt; lit methodName; sp_star; lit "("]);
    PRe (seqs [lits ["private"; "public"; "protected"]; sp_plus;
               async_opt; lit methodName; sp_star; lit "("]);
    PRe (seqs [lit "def"; sp_plus; lit methodName; sp_star; lit "("]);
    PRe (seqs [lit "func"; sp_plus; lit methodName; sp_star; lit "("]);
    PRe (seqs [lit "fn"; sp_plus; lit methodName; sp_star;
               Chr lt_or_paren]) ].

Definition tablePattern (tableName : string) : pattern :=
  PRe (seqs [lit_ci "CREATE TABLE"; sp_plus;
             opt (Seq (lit_ci "IF NOT EXISTS") sp_plus);
             lit_ci tableName; WordB]).

Definition routePatterns (httpMethod path : string) : list pattern :=
  [ PRe (seqs [lit "."; lit httpMethod; sp_star; lit "("; sp_star;
               Chr is_quote; lit path; Chr is_quote]);
    PRe (seqs [lit httpMethod; StarC is_dot; lit path]) ].

Definition quotedPattern (name : string) : pattern :=
  PRe (seqs [Chr is_quote; lit name; Chr is_quote]).

Definition validationPatterns (schemaName : string) : list pattern :=
  [ PRe (seqs [lit schemaName; lit ".";
               lits ["parse"; "safeParse"; "validate"]; sp_star; lit "("]);
    PRe (seqs [lit schemaName; lit "."; lit "check"; sp_star; lit "("]) ].

Definition callPattern (methodName : string) : pattern :=
  PRe (seqs [lit methodName; sp_star; lit "("]).

Definition dbPatterns (tableName : string) : list pattern :=
  [ PRe (seqs [alts [lit_ci "INSERT INTO"; lit_ci "UPDATE";
                     lit_ci "DELETE FROM";
                     seqs [lit_ci "SELECT"; StarC is_dot; lit_ci "FROM"]];
               sp_plus; lit_ci tableName]);
    PRe (seqs [Chr is_quote; StarC is_dot; lit tableName; StarC is_dot;
               Chr is_quote]) ].

End Patterns.

(* ------------------------------------------------------------------ *)
(** ** The verifiers *)

Section Verifier.

(** [readFileSync(path, "utf-8")]: [None] when the read throws. *)
Variable fs : string -> option string.

(** [path.resolve(projectRoot, root, pathPart)] *)
Variable resolve : string -> string -> string -> string.

Definition resolveLoc (l root projectRoot : string) : string * option nat :=
  let '(pathPart, linePart) := locParts l in
  let filePath := resolve projectRoot root pathPart in
  (filePath,
   match linePart with
   | Some d => if JsString.truthy d then Some (JsString.parseInt d) else None
   | None => None
   end).

Definition readSource (filePath : string) : option string := fs filePath.

(** [!source] for the result of [readSource]. *)
Definition falsy (source : option string) : bool :=
  negb (JsString.truthy_opt source).

Definition text (source : option string) : string :=
  match source with
  | Some s => s
  | None => ""
  end.

(** *** Node verification *)

Definition verifyTypeNode (i : string) (n : Node) (root projectRoot : string)
  : list Result :=
  let '(filePath, line) := resolveLoc (loc n) root projectRoot in
  let source := readSource filePath in
  if falsy source then
    [record FAIL structural i ("File not found: " ++ loc n)]
  else
    let source := text source in
    let typeName := JsString.replace "type:" "" i in
    let patterns := Patterns.typePatterns typeName in
    if negb (existsb (has source) patterns) then
      [record FAIL structural i
              ("Type '" ++ typeName ++ "' not found in " ++ loc n)]
    else
      (match truthy_line line with
       | Some ln =>
           let region := getRegion source ln 5 in
           if existsb (has region) patterns then
             [record PASS structural i ("Found at " ++ loc n)]
           else
             [record WARN structural i
                     ("Found in file but not near line "
                        ++ JsString.string_of_nat ln)]
       | None => [record PASS structural i ("Found in " ++ loc n)]
       end)
      ++ (match schema n with
          | Some sch =>
              if JsString.truthy sch && negb (has source (PStr sch)) then
                [record FAIL structural i
                        ("Schema '" ++ sch ++ "' not found")]
              else []
          | None => []
          end)
      ++ (match values n with
          | Some vals =>
              flat_map
                (fun val =>
                   if negb (has source (PStr val)) then
                     [record FAIL structural i
                             ("Enum value '" ++ val ++ "' not found")]
                   else [])
                vals
          | None => []
          end).

Definition verifyMethodNode (i : string) (n : Node)
           (root projectRoot : string) : list Result :=
  let '(filePath, line) := resolveLoc (loc n) root projectRoot in
  let source := readSource filePath in
  if falsy source then
    [record FAIL structural i ("File not found: " ++ loc n)]
  else
    let source := text source in
    let fullName := JsString.replace "method:" "" i in
    let methodName := last (JsString.split_on "." fullName) "" in
    let patterns := Patterns.methodPatterns methodName in
    if negb (existsb (has source) patterns) then
      [record FAIL structural i
              ("Method '" ++ methodName ++ "' not found in " ++ loc n)]
    else
      match truthy_line line with
      | Some ln =>
          let region := getRegion source ln 5 in
          if existsb (has region) patterns then
            [record PASS structural i ("Found at " ++ loc n)]
          else
            [record WARN structural i
                    ("Method found but not near line "
                       ++ JsString.string_of_nat ln)]
      | None => [record PASS structural i ("Found in " ++ loc n)]
      end.

Definition verifyTableNode (i : string) (n : Node)
           (root projectRoot : string) : list Result :=
  let '(filePath, _) := resolveLoc (loc n) root projectRoot in
  let source := readSource filePath in
  if falsy source then
    [record FAIL structural i ("File not found: " ++ loc n)]
  else
    let source := text source in
    let tableName := JsString.replace "table:" "" i in
    if negb (has source (Patterns.tablePattern tableName)) then
      [record FAIL structural i
              ("CREATE TABLE '" ++ tableName ++ "' not found")]
    else
      record PASS structural i "Table found"
      :: (match fk n with
          | Some fks =>
              flat_map
                (fun f =>
                   match fk_match f with
                   | Some m1 =>
                       if negb (has source (PStr m1)) then
                         [record WARN structural i
                                 ("FK to '" ++ m1 ++ "' not in DDL")]
                       else []
                   | None => []
                   end)
                fks
          | None => []
          end).

Definition verifyEndpointNode (i : string) (n : Node)
           (root projectRoot : string) : list Result :=
  let '(filePath, line) := resolveLoc (loc n) root projectRoot in
  let source := readSource filePath in
  if falsy source then
    [record FAIL structural i ("File not found: " ++ loc n)]
  else
    let source := text source in
    let endpointStr := JsString.replace "endpoint:" "" i in
    match JsString.indexOf " " endpointStr with
    | None =>
        if has source (PStr endpointStr) then
          [record PASS structural i "Endpoint reference found"]
        else
          [record FAIL structural i
                  ("Endpoint '" ++ endpointStr ++ "' not found")]
    | Some spaceIdx =>
        let httpMethod :=
          JsString.toLowerCase (String.substring 0 spaceIdx endpointStr) in
        let path := JsString.drop (spaceIdx + 1) endpointStr in
        let routePatterns := Patterns.routePatterns httpMethod path in
        if existsb (has source) routePatterns then
          match truthy_line line with
          | Some ln =>
              let region := getRegion source ln 10 in
              if existsb (has region) routePatterns then
                [record PASS structural i ("Route found at " ++ loc n)]
              else
                [record WARN structural i
                        ("Route in file but not near line "
                           ++ JsString.string_of_nat ln)]
          | None => [record PASS structural i ("Route found in " ++ loc n)]
          end
        else
          [record FAIL structural i
                  ("Route '" ++ httpMethod ++ " " ++ path ++ "' not found")]
    end.

Definition verifyEventNode (i : string) (n : Node)
           (root projectRoot : string) : list Result :=
  let '(filePath, _) := resolveLoc (loc n) root projectRoot in
  let source := readSource filePath in
  if falsy source then
    [record FAIL structural i ("File not found: " ++ loc n)]
  else
    let source := text source in
    let eventName := JsString.replace "event:" "" i in
    if has source (Patterns.quotedPattern eventName)
       || has source (PStr eventName)
    then [record PASS structural i ("Event '" ++ eventName ++ "' found")]
    else [record FAIL structural i ("Event '" ++ eventName ++ "' not found")].

(** *** Edge verification *)

Definition edgeId (e : Edge) : string :=
  from e ++ " -[" ++ rel e ++ "]-> " ++ to e.

Definition verifyEdge (e : Edge) (nds : obj Node)
           (root projectRoot : string) : list Result :=
  let eid := edgeId e in
  match obj_get nds (from e) with
  | None => [record FAIL relational eid "Source node missing"]
  | Some fromNode =>
  match obj_get nds (to e) with
  | None => [record FAIL relational eid "Target node missing"]
  | Some toNode =>
      let '(filePath, _) := resolveLoc (loc fromNode) root projectRoot in
      let source := readSource filePath in
      if falsy source then
        [record FAIL relational eid "Source file not found"]
      else
        let source := text source in
        if String.eqb (rel e) "co_change" then
          [record PASS relational eid
                  ("Co-change contract"
                     ++ match note e with
                        | Some nt =>
                            if JsString.truthy nt then ": " ++ nt else ""
                        | None => ""
                        end)]
        else if String.eqb (rel e) "validates" then
          match schema toNode with
          | Some schemaName =>
              if JsString.truthy schemaName then
                if existsb (has source)
                           (Patterns.validationPatterns schemaName)
                then [record PASS relational eid
                             (schemaName ++ " validation found")]
                else [record FAIL relational eid
                             ("No " ++ schemaName ++ " validation call")]
              else [record WARN relational eid
                           "No schema declared on target"]
          | None => [record WARN relational eid
                            "No schema declared on target"]
          end
        else if String.eqb (rel e) "calls" then
          let methodName :=
            last (JsString.split_on "."
                    (JsString.replace "method:" "" (to e))) "" in
          if has source (Patterns.callPattern methodName) then
            [record PASS relational eid "Call site found"]
          else
            [record FAIL relational eid
                    ("No call to '" ++ methodName ++ "'")]
        else if String.eqb (rel e) "writes" || String.eqb (rel e) "reads"
        then
          let tableName := JsString.replace "table:" "" (to e) in
          if existsb (has source) (Patterns.dbPatterns tableName) then
            [record PASS relational eid
                    ("DB op on '" ++ tableName ++ "' found")]
          else
            [record WARN relational eid
                    "No direct DB op (may be indirect)"]
        else if String.eqb (rel e) "emits" then
          let eventName := JsString.replace "event:" "" (to e) in
          if has source (Patterns.quotedPattern eventName) then
            [record PASS relational eid
                    ("Event '" ++ eventName ++ "' referenced")]
          else
            [record FAIL relational eid
                    ("No reference to '" ++ eventName ++ "'")]
        else if String.eqb (rel e) "listens" then
          let eventName := JsString.replace "event:" "" (to e) in
          if has source (Patterns.quotedPattern eventName) then
            [record PASS relational eid
                    ("Listener for '" ++ eventName ++ "' found")]
          else
            [record WARN relational eid
                    ("No listener for '" ++ eventName ++ "'")]
        else
          [record PASS relational eid
                  ("Relation '" ++ rel e ++ "' accepted")]
  end
  end.

(** *** Flow verification *)

Definition terminal (target : string) : bool :=
  String.eqb target "next" || String.eqb target "DONE"
  || String.eqb target "FAIL".

(** State of the existence loop: [(allExist, missing)]. *)
Definition note_missing (nds : obj Node) (st : bool * list string)
           (i : string) : bool * list string :=
  if negb (has_key nds i) then (false, List.app (snd st) [i]) else st.

Definition existence_target (nds : obj Node) (st : bool * list string)
           (target : string) : bool * list string :=
  if negb (terminal target) then note_missing nds st target else st.

Definition existence_step (nds : obj Node) (st : bool * list string)
           (s : Step) : bool * list string :=
  let st1 := note_missing nds st (node s) in
  match then_ s with
  | ThenBranch b => fold_left (existence_target nds) (obj_values b) st1
  | ThenStr _ => st1
  end.

Definition existence_scan (nds : obj Node) (fl : Flow)
  : bool * list string :=
  fold_left (existence_step nds) (steps fl) (true, []).

Definition flow_existence (nds : obj Node) (name : string) (fl : Flow)
  : list Result :=
  let '(allExist, missing) := existence_scan nds fl in
  if allExist then
    [record PASS flow name
            ("All " ++ JsString.string_of_nat (List.length (steps fl))
                    ++ " step nodes exist")]
  else
    [record FAIL flow name
            ("Missing nodes: " ++ JsString.join ", " missing)].

Definition inSteps (fl : Flow) (target : string) : bool :=
  existsb (fun s => String.eqb (node s) target) (steps fl).

(** State of the reachability loop: [(records pushed, allReachable)]. *)
Definition reach_entry (name : string) (fl : Flow)
           (st : list Result * bool) (entry : string * string)
  : list Result * bool :=
  let '(cond, target) := entry in
  if negb (terminal target) && negb (inSteps fl target) then
    (List.app (fst st)
               [record WARN flow name
                       ("'" ++ cond ++ "' -> '" ++ target
                            ++ "' not in step list")],
     false)
  else st.

Definition reach_step (name : string) (fl : Flow)
           (st : list Result * bool) (s : Step) : list Result * bool :=
  match then_ s with
  | ThenBranch b => fold_left (reach_entry name fl) b st
  | ThenStr _ => st
  end.

Definition flow_reachability (name : string) (fl : Flow) : list Result :=
  let '(warns, allReachable) :=
    fold_left (reach_step name fl) (steps fl) ([], true) in
  if allReachable then
    List.app warns [record PASS flow name "All branch targets reachable"]
  else warns.

Definition verifyFlows (fls : obj Flow) (nds : obj Node) : list Result :=
  flat_map
    (fun entry : string * Flow =>
       let '(name, fl) := entry in
       List.app (flow_existence nds name fl) (flow_reachability name fl))
    fls.

(** *** Invariant verification *)

Definition verifyInvariant (inv : Invariant) (nds : obj Node)
           (root projectRoot : string) : list Result :=
  let missingNodes := filter (fun s => negb (has_key nds s)) (scope inv) in
  if (0 <? List.length missingNodes)%nat then
    [record FAIL invariant (inv_id inv)
            ("Scoped nodes missing: " ++ JsString.join ", " missingNodes)]
  else
    let scopeNodes :=
      flat_map (fun s => match obj_get nds s with
                         | Some n => [n]
                         | None => []
                         end) (scope inv) in
    let allFilesExist :=
      forallb (fun n =>
                 negb (falsy (readSource
                                (fst (resolveLoc (loc n) root projectRoot)))))
              scopeNodes in
    if negb allFilesExist then
      [record FAIL invariant (inv_id inv) "Some scoped files not found"]
    else
      let enforceNote :=
        match enforce inv with
        | Some en =>
            if JsString.truthy en then " [enforce: " ++ en ++ "]" else ""
        | None => ""
        end in
      [record WARN invariant (inv_id inv)
              (rule inv ++ " " ++ em_dash
                    ++ " requires manual/custom verification"
                    ++ enforceNote)].

Definition verifyInvariants (invs : list Invariant) (nds : obj Node)
           (root projectRoot : string) : list Result :=
  flat_map (fun inv => verifyInvariant inv nds root projectRoot) invs.

(** *** Full verification *)

(** Dispatch through the [nodeVerifiers] table, with the custom-kind
    fallback of the main loop. *)
Definition verifyNode (i : string) (n : Node) (root projectRoot : string)
  : list Result :=
  if String.eqb (kind n) "type" then verifyTypeNode i n root projectRoot
  else if String.eqb (kind n) "method" then
    verifyMethodNode i n root projectRoot
  else if String.eqb (kind n) "table" then
    verifyTableNode i n root projectRoot
  else if String.eqb (kind n) "endpoint" then
    verifyEndpointNode i n root projectRoot
  else if String.eqb (kind n) "event" then
    verifyEventNode i n root projectRoot
  else
    let '(filePath, _) := resolveLoc (loc n) root projectRoot in
    if negb (falsy (readSource filePath)) then
      [record PASS structural i ("File exists at " ++ loc n)]
    else
      [record FAIL structural i ("File not found: " ++ loc n)].

Definition verifyNodes (nds : obj Node) (root projectRoot : string)
  : list Result :=
  flat_map (fun entry : string * Node =>
              verifyNode (fst entry) (snd entry) root projectRoot) nds.

(** The relational loop, with its [if (edge._comment) continue]. *)
Definition verifyEdges (es : list Edge) (nds : obj Node)
           (root projectRoot : string) : list Result :=
  flat_map (fun e =>
              if JsString.truthy_opt (_comment e) then []
              else verifyEdge e nds root projectRoot) es.

Definition count_status (st : Status) (rs : list Result) : nat :=
  List.length (filter (fun r => Status_eqb (status r) st) rs).

(** The process exit status decided at the end of [runVerification]. *)
Definition exit_status (rs : list Result) : nat :=
  if (0 <? count_status FAIL rs)%nat then 1 else 0.

(** All records pushed by one run, in push order. *)
Definition verificationResults (fg : Flowgraph) (projectRoot : string)
  : list Result :=
  let root := meta_root fg in
  List.app (verifyNodes (nodes fg) root projectRoot)
    (List.app (verifyEdges (edges fg) (nodes fg) root projectRoot)
       (List.app (verifyFlows (flows fg) (nodes fg))
          (verifyInvariants (invariants fg) (nodes fg) root projectRoot))).

(** [runVerification]: the accumulated records and the exit status. *)
Definition runVerification (fg : Flowgraph) (projectRoot : string)
  : list Result * nat :=
  let results := verificationResults fg projectRoot in
  (results, exit_status results).

End Verifier.

(* ------------------------------------------------------------------ *)
(** ** Impact analysis *)

Record FlowHit : Type := {
  hit_name : string;
  hit_flow : Flow;
  inFlow : bool;
  branchTarget : bool
}.

Record ImpactReport : Type := {
  outgoing : list Edge;
  incoming : list Edge;
  cochangeOut : list Edge;
  cochangeIn : list Edge;
  containingFlows : list FlowHit;
  scopedInvariants : list Invariant
}.

(** Either the node is unknown (the sorted list of available ids is
    printed and the process exits with status 1) or the four sub-queries
    are reported. *)
Inductive ImpactOutcome : Type :=
| NotFound (available : list string)
| Found (n : Node) (report : ImpactReport).

Definition is_branch_target (nodeId : string) (s : Step) : bool :=
  match then_ s with
  | ThenBranch b => existsb (String.eqb nodeId) (obj_values b)
  | ThenStr _ => false
  end.

Definition flow_hits (nodeId : string) (fls : obj Flow) : list FlowHit :=
  flat_map
    (fun entry : string * Flow =>
       let '(name, fl) := entry in
       let inFl := existsb (fun s => String.eqb (node s) nodeId) (steps fl) in
       let branchT := existsb (is_branch_target nodeId) (steps fl) in
       if inFl || branchT then
         [{| hit_name := name; hit_flow := fl;
             inFlow := inFl; branchTarget := branchT |}]
       else [])
    fls.

Definition runImpactAnalysis (nodeId : string) (fg : Flowgraph)
  : ImpactOutcome :=
  let es := filter (fun e => negb (JsString.truthy_opt (_comment e)))
                   (edges fg) in
  match obj_get (nodes fg) nodeId with
  | None => NotFound (JsString.sort (keys (nodes fg)))
  | Some n =>
      let out := filter (fun e => String.eqb (from e) nodeId) es in
      let inc := filter (fun e => String.eqb (to e) nodeId) es in
      Found n
        {| outgoing := out;
           incoming := inc;
           cochangeOut := filter (fun e => String.eqb (rel e) "co_change") out;
           cochangeIn := filter (fun e => String.eqb (rel e) "co_change") inc;
           containingFlows := flow_hits nodeId (flows fg);
           scopedInvariants :=
             filter (fun inv => existsb (String.eqb nodeId) (scope inv))
                    (invariants fg) |}
  end.

(** Exit status of the impact command. *)
Definition impact_exit (o : ImpactOutcome) : nat :=
  match o with
  | NotFound _ => 1
  | Found _ _ => 0
  end.

(* ------------------------------------------------------------------ *)
(** ** Example documents and source trees *)

Module Examples.

Definition nl : string := String "010" "".

(** A stand-in for path resolution: plain concatenation. *)
Definition resolve (projectRoot root pathPart : string) : string :=
  projectRoot ++ "/" ++ root ++ pathPart.

Definition plain (k l : string) : Node :=
  {| kind := k; loc := l; schema := None; values := None; fk := None |}.

Definition edge (f t r : string) : Edge :=
  {| from := f; to := t; rel := r; note := None; _comment := None |}.

Definition commented (c f t r : string) : Edge :=
  {| from := f; to := t; rel := r; note := None; _comment := Some c |}.

Definition doc (nds : obj Node) (es : list Edge) (fls : obj Flow)
           (invs : list Invariant) : Flowgraph :=
  {| meta_name := "example"; meta_root := "src/"; nodes := nds;
     edges := es; flows := fls; invariants := invs |}.

Definition schema_sql : string :=
  "CREATE TABLE IF NOT EXISTS tasks (" ++ nl ++
  "  id SERIAL PRIMARY KEY," ++ nl ++
  "  title TEXT NOT NULL" ++ nl ++
  ");" ++ nl.

Definition repository_ts : string :=
  "export class TaskRepository {" ++ nl ++
  "  async create(input: CreateTask): Promise<Task> {" ++ nl ++
  "    return this.db.query(`INSERT INTO tasks (title) VALUES ($1)`);" ++ nl ++
  "  }" ++ nl ++
  "}" ++ nl.

Definition events_ts : string :=
  "bus.emit('task.created', task);" ++ nl.

(** A source tree with three files. *)
Definition tree (p : string) : option string :=
  if String.eqb p "/proj/src/schema.sql" then Some schema_sql
  else if String.eqb p "/proj/src/repository.ts" then Some repository_ts
  else if String.eqb p "/proj/src/events.ts" then Some events_ts
  else None.

(** A source tree with no readable file at all. *)
Definition empty_tree (p : string) : option string := None.

Definition two_nodes : obj Node :=
  [ ("table:tasks", plain "table" "schema.sql:1");
    ("method:TaskRepository.create", plain "method" "repository.ts:2") ].

Definition co_change_edge : Edge :=
  edge "table:tasks" "method:TaskRepository.create" "co_change".

Definition commented_edge : Edge :=
  commented "legacy" "table:tasks" "method:TaskRepository.create" "co_change".

Definition step (n : string) (t : Then) : Step :=
  {| node := n; then_ := t |}.

(** One step that jumps to a node id. *)
Definition jump_flow : Flow :=
  {| trigger := "POST /tasks";
     steps := [step "method:TaskRepository.create" (ThenStr "method:Ghost")] |}.

(** One step whose only branch loops back to the step itself. *)
Definition retry_flow : Flow :=
  {| trigger := "POST /tasks";
     steps := [step "method:TaskRepository.create"
                    (ThenBranch [("retry", "method:TaskRepository.create")])] |}.

(** A linear flow through a node that is not in the table. *)
Definition linear_flow : Flow :=
  {| trigger := "POST /tasks";
     steps := [step "method:TaskRepository.create" (ThenStr "next");
               step "method:Ghost" (ThenStr "DONE")] |}.

(** A branch to a node outside the flow and outside the table. *)
Definition ghost_flow : Flow :=
  {| trigger := "POST /tasks";
     steps := [step "method:TaskRepository.create"
                    (ThenBranch [("ok", "next"); ("missing", "method:Ghost")])] |}.

Definition padding (n : nat) : list string := repeat "-- padding" n.

(** The statement sits on line 40. *)
Definition far_sql : string :=
  String.concat nl (padding 39 ++ ["CREATE TABLE tasks (id INT);"])%list.

(** The declaration sits on line 20. *)
Definition far_ts : string :=
  String.concat nl (padding 19 ++ ["export interface Task {}"])%list.

Definition far_tree (p : string) : option string :=
  if String.eqb p "/proj/src/far.sql" then Some far_sql
  else if String.eqb p "/proj/src/far.ts" then Some far_ts
  else None.

Definition fk_table : Node :=
  {| kind := "table"; loc := "schema.sql"; schema := None; values := None;
     fk := Some ["owner_id -> users.id"] |}.

Definition enum_type : Node :=
  {| kind := "type"; loc := "far.ts"; schema := Some "TaskSchema";
     values := Some ["pending"] ; fk := None |}.

Definition audit_invariant : Invariant :=
  {| inv_id := "INV-001"; rule := "writes are audited";
     scope := ["table:tasks"]; enforce := Some "review" |}.

End Examples.

(* ------------------------------------------------------------------ *)
(** ** Declarative readings used in the statements *)

(** [pat] occurs in [s] as plain text. *)
Definition occurs (pat s : string) : Prop :=
  exists pre post, s = pre ++ pat ++ post.

(** [name] occurs in [s] between two quote characters (single quote,
    double quote or backtick, not necessarily the same one). *)
Definition quoted_occurrence (name s : string) : Prop :=
  exists pre q1 q2 post,
    Re.is_quote q1 = true /\ Re.is_quote q2 = true
    /\ s = pre ++ String q1 (name ++ String q2 post).

(** The ids the existence check of a flow looks up: every step's node and
    every non-terminal target of a step whose [then] is a mapping. *)
Definition checked_ids (fl : Flow) : list string :=
  flat_map
    (fun s =>
       node s ::
       match then_ s with
       | ThenBranch b => filter (fun t => negb (terminal t)) (obj_values b)
       | ThenStr _ => []
       end)
    (steps fl).

Definition missing_ids (nds : obj Node) (fl : Flow) : list string :=
  filter (fun i => negb (has_key nds i)) (checked_ids fl).

(** The branch entries of the steps [ss] that violate reachability within
    [fl]: the target is not a terminal keyword and is the node of no step of
    [fl]. *)
Definition violations_in (fl : Flow) (ss : list Step)
  : list (string * string) :=
  flat_map
    (fun s =>
       match then_ s with
       | ThenBranch b =>
           filter (fun entry : string * string =>
                     negb (terminal (snd entry))
                     && negb (inSteps fl (snd entry))) b
       | ThenStr _ => []
       end)
    ss.

Definition violations (fl : Flow) : list (string * string) :=
  violations_in fl (steps fl).

Definition unreachable_warning (name : string) (entry : string * string)
  : Result :=
  record WARN flow name
         ("'" ++ fst entry ++ "' -> '" ++ snd entry ++ "' not in step list").

(** A step whose [then] is a mapping. *)
Definition is_branching (s : Step) : bool :=
  match then_ s with
  | ThenBranch _ => true
  | ThenStr _ => false
  end.

(** [nodeId] is the node of some step of [fl]. *)
Definition step_node_of (nodeId : string) (fl : Flow) : Prop :=
  exists s, In s (steps fl) /\ node s = nodeId.

(** [nodeId] is a target value in the mapping of some step of [fl]. *)
Definition branch_target_of (nodeId : string) (fl : Flow) : Prop :=
  exists s b cond,
    In s (steps fl) /\ then_ s = ThenBranch b /\ In (cond, nodeId) b.



(** The relations [verifyEdge] has a case for. *)
Definition known_relations : list string :=
  ["co_change"; "validates"; "calls"; "writes"; "reads"; "emits"; "listens"].

(** The kinds with a verifier of their own. *)
Definition builtin_kinds : list string :=
  ["type"; "method"; "table"; "endpoint"; "event"].

(** The node's resolved file is read with non-empty text. *)
Definition readable (fs : string -> option string)
           (resolve : string -> string -> string -> string)
           (n : Node) (root projectRoot : string) : bool :=
  negb (falsy (readSource fs (fst (resolveLoc resolve (loc n) root projectRoot)))).

(** The text of the node's resolved file. *)
Definition source_of (fs : string -> option string)
           (resolve : string -> string -> string -> string)
           (n : Node) (root projectRoot : string) : string :=
  text (readSource fs (fst (resolveLoc resolve (loc n) root projectRoot))).

Definition has_category (c : Category) (r : Result) : bool :=
  Category_eqb (category r) c.

Definition no_comment (e : Edge) : bool :=
  negb (JsString.truthy_opt (_comment e)).

Module MoreExamples.

Definition service_ts : string :=
  "export class TaskService {" ++ Examples.nl ++
  "  create(input) {" ++ Examples.nl ++
  "    const data = CreateTaskSchema.parse (input);" ++ Examples.nl ++
  "    this.bus.emit('task.created', data);" ++ Examples.nl ++
  "    return this.repo.create(data);" ++ Examples.nl ++
  "  }" ++ Examples.nl ++
  "}" ++ Examples.nl.

Definition tree (p : string) : option string :=
  if String.eqb p "/proj/src/service.ts" then Some service_ts
  else Examples.tree p.

Definition typed (l sch : string) : Node :=
  {| kind := "type"; loc := l; schema := Some sch; values := None;
     fk := None |}.

Definition nds : obj Node :=
  [ ("table:tasks", Examples.plain "table" "schema.sql:1");
    ("method:TaskRepository.create", Examples.plain "method" "repository.ts:2");
    ("method:TaskService.create", Examples.plain "method" "service.ts:2");
    ("type:CreateTask", typed "service.ts" "CreateTaskSchema");
    ("event:task.created", Examples.plain "event" "service.ts");
    ("queue:jobs", Examples.plain "queue" "events.ts") ].

Definition calls_edge : Edge :=
  Examples.edge "method:TaskService.create" "method:TaskRepository.create"
                "calls".

Definition emits_edge : Edge :=
  Examples.edge "method:TaskService.create" "event:task.created" "emits".

Definition listens_edge : Edge :=
  Examples.edge "method:TaskRepository.create" "event:task.created" "listens".


Definition writes_edge : Edge :=
  Examples.edge "method:TaskService.create" "table:tasks" "writes".

Definition custom_edge : Edge :=
  Examples.edge "method:TaskService.create" "queue:jobs" "enqueues".

Definition dangling_edge : Edge :=
  Examples.edge "method:Ghost" "table:tasks" "calls".

Definition empty_scope_invariant : Invariant :=
  {| inv_id := "INV-002"; rule := "nothing in scope"; scope := [];
     enforce := None |}.

Definition ghost_invariant : Invariant :=
  {| inv_id := "INV-003"; rule := "ghost"; scope := ["method:Ghost"];
     enforce := None |}.

End MoreExamples.

(** ASCII upper-casing of a whole string: the canonical form compared under
    the [i] flag. *)
Fixpoint upper_string (s : string) : string :=
  match s with
  | EmptyString => EmptyString
  | String a s' => String (JsString.upper_char a) (upper_string s')
  end.

(* ------------------------------------------------------------------ *)
(** ** Diagram rendering helpers *)

Module Render.

(** The characters [sanitizeMermaidId] replaces: the class [[:./ \-]]. *)
Definition is_special (c : ascii) : bool :=
  Ascii.eqb c ":" || Ascii.eqb c "." || Ascii.eqb c "/" || Ascii.eqb c " "
  || Ascii.eqb c "-".

(** [id.replace(/[:./ \-]/g, "_")] *)
Fixpoint sanitizeMermaidId (s : string) : string :=
  match s with
  | EmptyString => EmptyString
  | String c s' =>
      String (if is_special c then "_"%char else c) (sanitizeMermaidId s')
  end.

(** [id.replace(/^[^:]+:/, "")]: a non-empty colon-free head and the first
    colon are removed; anything else is left as it is. *)
Definition shortLabel (s : string) : string :=
  match JsString.indexOf ":" s with
  | Some (S k) => JsString.drop (S (S k)) s
  | _ => s
  end.

(** [if (!groups[kind]) groups[kind] = []; groups[kind].push(id)] on an
    object whose keys are kept in insertion order. *)
Fixpoint group_push (kind i : string) (groups : obj (list string))
  : obj (list string) :=
  match groups with
  | [] => [(kind, [i])]
  | (k, ids) :: rest =>
      if String.eqb k kind then (k, List.app ids [i]) :: rest
      else (k, ids) :: group_push kind i rest
  end.

(** The [groups] object built by the first loop of
    [renderDependencyGraph]. *)
Definition group_by_kind (nds : obj Node) : obj (list string) :=
  fold_left (fun groups entry => group_push (kind (snd entry)) (fst entry) groups)
            nds [].

End Render.

(* ------------------------------------------------------------------ *)
(** ** Arguments of the verify command *)

Module Cli.

Fixpoint indexOf (x : string) (l : list string) : option nat :=
  match l with
  | [] => None
  | y :: l' => if String.eqb y x then Some 0 else option_map S (indexOf x l')
  end.

Definition opt_nat_eqb (a : option nat) (b : nat) : bool :=
  match a with
  | Some n => Nat.eqb n b
  | None => false
  end.

(** [verifyArgs.indexOf("--impact")] *)
Definition impactIdx (verifyArgs : list string) : option nat :=
  indexOf "--impact" verifyArgs.

(** [impactIdx !== -1 ? verifyArgs[impactIdx + 1] : null] *)
Definition impactNode (verifyArgs : list string) : option string :=
  match impactIdx verifyArgs with
  | Some k => nth_error verifyArgs (k + 1)
  | None => None
  end.

(** The first argument that is not an option and whose first occurrence is
    not right after [--impact]. *)
Definition explicitFile (verifyArgs : list string) : option string :=
  find (fun a =>
          negb (prefix "--" a)
          && match impactIdx verifyArgs with
             | None => true
             | Some k => negb (opt_nat_eqb (indexOf a verifyArgs) (k + 1))
             end)
       verifyArgs.

(** Which entry point the verify command calls once the document is
    loaded. *)
Inductive Mode : Type :=
| RunImpact (nodeId : string)
| RunVerification.

Definition mode (verifyArgs : list string) : Mode :=
  match impactNode verifyArgs with
  | Some nodeId => if JsString.truthy nodeId then RunImpact nodeId
                   else RunVerification
  | None => RunVerification
  end.

End Cli.

(* ------------------------------------------------------------------ *)
(** * Properties *)

(** ** Splitting and joining *)

Lemma split_on_nonempty (c : ascii) (s : string) :
  JsString.split_on c s <> [].
Proof.
  destruct s as [|a s]; simpl; [discriminate|].
  destruct (Ascii.eqb a c); [discriminate|].
  destruct (JsString.split_on c s); discriminate.
Qed.

Lemma concat_cons_nonempty (sep x : string) (xs : list string) :
  xs <> [] -> String.concat sep (x :: xs) = x ++ sep ++ String.concat sep xs.
Proof.
  destruct xs; [congruence | reflexivity].
Qed.

(** Joining the segments of a split with the separator gives the string
    back. *)
Lemma join_split_on (c : ascii) (s : string) :
  JsString.join (String c "") (JsString.split_on c s) = s.
Proof.
  unfold JsString.join.
  induction s as [|a s IH]; simpl; [reflexivity|].
  destruct (Ascii.eqb_spec a c) as [->|Hne].
  - rewrite concat_cons_nonempty by apply split_on_nonempty.
    simpl. now rewrite IH.
  - pose proof (split_on_nonempty c s) as Hs.
    destruct (JsString.split_on c s) as [|seg rest]; [congruence|].
    destruct rest as [|r rest'].
    + simpl in *. now rewrite IH.
    + change (String.concat (String c "") (String a seg :: r :: rest'))
        with (String a seg ++ String c "" ++
                String.concat (String c "") (r :: rest')).
      change (String.concat (String c "") (seg :: r :: rest'))
        with (seg ++ String c "" ++
                String.concat (String c "") (r :: rest')) in IH.
      simpl. now rewrite <- IH.
Qed.

Lemma split_on_no_sep (c : ascii) (d : string) :
  JsString.all_chars (fun a => negb (Ascii.eqb a c)) d = true ->
  JsString.split_on c d = [d].
Proof.
  induction d as [|a d IH]; simpl; [reflexivity|].
  intros H. apply andb_true_iff in H as [Ha Hd].
  destruct (Ascii.eqb a c); [discriminate|].
  now rewrite (IH Hd).
Qed.

Lemma split_on_app (c : ascii) (p d : string) :
  JsString.split_on c (p ++ String c d)
  = (JsString.split_on c p ++ JsString.split_on c d)%list.
Proof.
  induction p as [|a p IH]; simpl.
  - now rewrite Ascii.eqb_refl.
  - destruct (Ascii.eqb a c).
    + now rewrite IH.
    + rewrite IH.
      pose proof (split_on_nonempty c p) as Hs.
      destruct (JsString.split_on c p); [congruence | reflexivity].
Qed.

Lemma all_chars_impl (p q : ascii -> bool) (s : string) :
  (forall a, p a = true -> q a = true) ->
  JsString.all_chars p s = true -> JsString.all_chars q s = true.
Proof.
  intros Hpq. induction s as [|a s IH]; simpl; [reflexivity|].
  intros H. apply andb_true_iff in H as [Ha Hs].
  now rewrite (Hpq _ Ha), (IH Hs).
Qed.

Lemma digit_not_colon (a : ascii) :
  JsString.is_digit a = true -> negb (Ascii.eqb a ":") = true.
Proof.
  destruct (Ascii.eqb_spec a ":") as [->|]; [discriminate | reflexivity].
Qed.

(** A location written [path:digits] resolves to [path] and the digits. *)
Lemma locParts_line (p d : string) :
  JsString.is_numeric d = true -> locParts (p ++ ":" ++ d) = (p, Some d).
Proof.
  intros Hd. unfold locParts.
  change (p ++ ":" ++ d) with (p ++ String ":" d).
  rewrite split_on_app.
  assert (Hsplit : JsString.split_on ":" d = [d]).
  { apply split_on_no_sep.
    unfold JsString.is_numeric in Hd. apply andb_true_iff in Hd as [_ Hd].
    revert Hd. apply all_chars_impl, digit_not_colon. }
  rewrite Hsplit, last_last, removelast_last, Hd, length_app.
  assert (Hlen : (1 <? List.length (JsString.split_on ":" p) + 1)%nat = true).
  { apply Nat.ltb_lt. pose proof (split_on_nonempty ":" p) as Hne.
    destruct (JsString.split_on ":" p); [congruence | simpl; lia]. }
  cbn [List.length] in *. rewrite Hlen. cbn [andb].
  now rewrite (join_split_on ":" p).
Qed.

(** ** Location resolver *)

Lemma numeric_truthy (d : string) :
  JsString.is_numeric d = true -> JsString.truthy d = true.
Proof.
  unfold JsString.is_numeric, JsString.truthy.
  intros H. now apply andb_true_iff in H as [H _].
Qed.

(** C8, as amended: when the location string has at least two
    colon-delimited segments and the final one is a non-empty run of
    decimal digits, the resolver strips that segment as the line number and
    resolves the remaining segments rejoined with a colon; in every other
    case (in particular for a string without any colon, even a purely
    numeric one) the whole string is the path and there is no line number. *)
Theorem resolveLoc_spec
        (resolve : string -> string -> string -> string)
        (l root projectRoot : string) :
  (2 <= List.length (JsString.split_on ":" l)
   /\ JsString.is_numeric (last (JsString.split_on ":" l) "") = true ->
   resolveLoc resolve l root projectRoot
   = (resolve projectRoot root
              (JsString.join ":" (removelast (JsString.split_on ":" l))),
      Some (JsString.parseInt (last (JsString.split_on ":" l) ""))))
  /\
  (~ (2 <= List.length (JsString.split_on ":" l)
      /\ JsString.is_numeric (last (JsString.split_on ":" l) "") = true) ->
   resolveLoc resolve l root projectRoot
   = (resolve projectRoot root l, None)).
Proof.
  unfold resolveLoc, locParts. split.
  - intros [Hlen Hnum].
    replace (1 <? List.length (JsString.split_on ":" l))%nat with true
      by (symmetry; apply Nat.ltb_lt; lia).
    rewrite Hnum. cbn [andb].
    now rewrite (numeric_truthy _ Hnum).
  - intros Hno.
    destruct ((1 <? List.length (JsString.split_on ":" l))%nat
              && JsString.is_numeric (last (JsString.split_on ":" l) ""))
      eqn:E.
    + exfalso. apply Hno. apply andb_true_iff in E as [E1 E2].
      apply Nat.ltb_lt in E1. split; [lia | exact E2].
    + now rewrite (join_split_on ":" l).
Qed.

Lemma resolveLoc_spec_witness :
  resolveLoc Examples.resolve "a/b.ts:12" "src/" "/proj"
  = ("/proj/src/a/b.ts", Some 12)
  /\ resolveLoc Examples.resolve "C:\src\b.ts" "src/" "/proj"
     = ("/proj/src/C:\src\b.ts", None).
Proof.
  split.
  - apply (proj1 (resolveLoc_spec Examples.resolve "a/b.ts:12" "src/" "/proj")).
    split; [simpl; lia | reflexivity].
  - apply (proj2 (resolveLoc_spec Examples.resolve "C:\src\b.ts" "src/"
                                  "/proj")).
    intros [_ H]. vm_compute in H. discriminate H.
Defined.

(** C8 fails as stated: the location ["42"] consists of one segment that is
    purely numeric, yet nothing is stripped; the whole string is the path
    and no line number is produced. *)
Lemma resolveLoc_bare_number_kept :
  JsString.split_on ":" "42" = ["42"]
  /\ JsString.is_numeric (last (JsString.split_on ":" "42") "") = true
  /\ resolveLoc Examples.resolve "42" "src/" "/proj" = ("/proj/src/42", None)
  /\ resolveLoc Examples.resolve "42" "src/" "/proj"
     <> (Examples.resolve "/proj" "src/"
           (JsString.join ":" (removelast (JsString.split_on ":" "42"))),
         Some (JsString.parseInt (last (JsString.split_on ":" "42") ""))).
Proof.
  repeat split; try reflexivity.
  vm_compute. discriminate.
Qed.

(** ** Edge verification *)

(** C1, as amended: for a [co_change] edge whose [from] and [to] ids both
    resolve in the node table, the relational check pushes exactly one
    record; it is a PASS whenever the [from] node's file is read with
    non-empty content, whatever that content is, and it is the FAIL
    "Source file not found" when the file cannot be read. *)
Theorem verifyEdge_co_change
        (fs : string -> option string)
        (resolve : string -> string -> string -> string)
        (e : Edge) (nds : obj Node) (root projectRoot : string)
        (fromNode toNode : Node) :
  rel e = "co_change" ->
  obj_get nds (from e) = Some fromNode ->
  obj_get nds (to e) = Some toNode ->
  (forall src,
      fs (fst (resolveLoc resolve (loc fromNode) root projectRoot)) = Some src ->
      src <> "" ->
      exists msg,
        verifyEdge fs resolve e nds root projectRoot
        = [record PASS relational (edgeId e) msg])
  /\
  (fs (fst (resolveLoc resolve (loc fromNode) root projectRoot)) = None ->
   verifyEdge fs resolve e nds root projectRoot
   = [record FAIL relational (edgeId e) "Source file not found"]).
Proof.
  intros Hrel Hfrom Hto. unfold verifyEdge. rewrite Hfrom, Hto.
  destruct (resolveLoc resolve (loc fromNode) root projectRoot)
    as [filePath line].
  cbn [fst]. unfold readSource. split.
  - intros src Hsrc Hne. rewrite Hsrc.
    unfold falsy, JsString.truthy_opt, JsString.truthy.
    destruct (String.eqb_spec src "") as [->|_]; [congruence|].
    cbn [negb]. rewrite Hrel. cbn [String.eqb Ascii.eqb].
    eexists. reflexivity.
  - intros Hnone. now rewrite Hnone.
Qed.

Lemma verifyEdge_co_change_witness :
  (exists msg,
      verifyEdge Examples.tree Examples.resolve Examples.co_change_edge
                 Examples.two_nodes "src/" "/proj"
      = [record PASS relational (edgeId Examples.co_change_edge) msg])
  /\ (verifyEdge Examples.empty_tree Examples.resolve Examples.co_change_edge
                 Examples.two_nodes "src/" "/proj"
      = [record FAIL relational (edgeId Examples.co_change_edge)
                "Source file not found"]).
Proof.
  split.
  - apply (proj1 (verifyEdge_co_change Examples.tree Examples.resolve
                    Examples.co_change_edge Examples.two_nodes "src/" "/proj"
                    (Examples.plain "table" "schema.sql:1")
                    (Examples.plain "method" "repository.ts:2")
                    eq_refl eq_refl eq_refl)
             Examples.schema_sql).
    + reflexivity.
    + discriminate.
  - apply (proj2 (verifyEdge_co_change Examples.empty_tree Examples.resolve
                    Examples.co_change_edge Examples.two_nodes "src/" "/proj"
                    (Examples.plain "table" "schema.sql:1")
                    (Examples.plain "method" "repository.ts:2")
                    eq_refl eq_refl eq_refl)).
    reflexivity.
Defined.

(** C1 fails as stated: both endpoints of the [co_change] edge are in the
    node table, but the [from] node's file cannot be read, and the
    relational check records FAIL, not PASS. *)
Lemma co_change_unreadable_source_fails :
  rel Examples.co_change_edge = "co_change"
  /\ has_key Examples.two_nodes (from Examples.co_change_edge) = true
  /\ has_key Examples.two_nodes (to Examples.co_change_edge) = true
  /\ verifyEdge Examples.empty_tree Examples.resolve Examples.co_change_edge
                Examples.two_nodes "src/" "/proj"
     = [record FAIL relational
               "table:tasks -[co_change]-> method:TaskRepository.create"
               "Source file not found"].
Proof.
  repeat split.
Qed.

Lemma verifyEdges_app
      (fs : string -> option string)
      (resolve : string -> string -> string -> string)
      (es1 es2 : list Edge) (nds : obj Node) (root projectRoot : string) :
  verifyEdges fs resolve (es1 ++ es2) nds root projectRoot
  = (verifyEdges fs resolve es1 nds root projectRoot
       ++ verifyEdges fs resolve es2 nds root projectRoot)%list.
Proof.
  unfold verifyEdges. apply flat_map_app.
Qed.

(** C10: an edge object with a truthy [_comment] is skipped entirely.  The
    relational phase pushes the same records with or without it, so no
    record is produced for it, in the phase alone and in a whole run; and
    it is in neither the outgoing nor the incoming list of any impact
    report. *)
Theorem comment_edges_skipped (e : Edge) :
  JsString.truthy_opt (_comment e) = true ->
  (forall fs resolve es1 es2 nds root projectRoot,
      verifyEdges fs resolve (es1 ++ e :: es2) nds root projectRoot
      = verifyEdges fs resolve (es1 ++ es2) nds root projectRoot)
  /\
  (forall fs resolve name root nds es1 es2 fls invs projectRoot,
      runVerification fs resolve
        {| meta_name := name; meta_root := root; nodes := nds;
           edges := es1 ++ e :: es2; flows := fls; invariants := invs |}
        projectRoot
      = runVerification fs resolve
          {| meta_name := name; meta_root := root; nodes := nds;
             edges := es1 ++ es2; flows := fls; invariants := invs |}
          projectRoot)
  /\
  (forall nodeId fg n report,
      runImpactAnalysis nodeId fg = Found n report ->
      ~ In e (outgoing report) /\ ~ In e (incoming report)).
Proof.
  intros Hc.
  assert (Hskip : forall fs resolve es1 es2 nds root projectRoot,
             verifyEdges fs resolve (es1 ++ e :: es2) nds root projectRoot
             = verifyEdges fs resolve (es1 ++ es2) nds root projectRoot).
  { intros. rewrite !verifyEdges_app. f_equal.
    unfold verifyEdges. cbn [flat_map]. now rewrite Hc. }
  split; [exact Hskip|]. split.
  - intros. unfold runVerification, verificationResults.
    cbn [meta_root nodes edges flows invariants].
    now rewrite Hskip.
  - intros nodeId fg n report Himp. unfold runImpactAnalysis in Himp.
    destruct (obj_get (nodes fg) nodeId); [|discriminate].
    injection Himp as _ <-. cbn [outgoing incoming].
    split; intros Hin;
      apply filter_In in Hin as [Hin _];
      apply filter_In in Hin as [_ Hin];
      rewrite Hc in Hin; discriminate.
Qed.

Lemma comment_edges_skipped_witness :
  verifyEdges Examples.tree Examples.resolve
              [Examples.commented_edge; Examples.co_change_edge]
              Examples.two_nodes "src/" "/proj"
  = verifyEdges Examples.tree Examples.resolve [Examples.co_change_edge]
                Examples.two_nodes "src/" "/proj"
  /\ (forall n report,
         runImpactAnalysis "table:tasks"
           (Examples.doc Examples.two_nodes [Examples.commented_edge] [] [])
         = Found n report ->
         ~ In Examples.commented_edge (outgoing report)
         /\ ~ In Examples.commented_edge (incoming report)).
Proof.
  destruct (comment_edges_skipped Examples.commented_edge eq_refl)
    as [Hphase [_ Himpact]].
  split.
  - exact (Hphase Examples.tree Examples.resolve [] [Examples.co_change_edge]
                  Examples.two_nodes "src/" "/proj").
  - intros n report. apply Himpact.
Defined.

(** ** Exit status *)

Lemma count_status_zero (st : Status) (rs : list Result) :
  count_status st rs = 0 <-> (forall r, In r rs -> status r <> st).
Proof.
  unfold count_status. induction rs as [|r rs IH]; simpl.
  - split; [intros _ r [] | reflexivity].
  - destruct (Status_eqb (status r) st) eqn:E; simpl.
    + split; [discriminate|].
      intros H. exfalso. apply (H r); [now left|].
      destruct (status r), st; simpl in E; congruence.
    + rewrite IH. split.
      * intros H r' [<-|Hin]; [|now apply H].
        intros Heq. rewrite Heq in E. destruct st; discriminate.
      * intros H r' Hin. apply H. now right.
Qed.



(** ** Impact analysis *)

Lemma insert_sorted_perm (x : string) (l : list string) :
  Permutation (JsString.insert_sorted x l) (x :: l).
Proof.
  induction l as [|y l IH]; simpl; [reflexivity|].
  destruct (String.leb x y); [reflexivity|].
  rewrite IH. apply perm_swap.
Qed.

Lemma sort_perm (l : list string) : Permutation (JsString.sort l) l.
Proof.
  unfold JsString.sort. induction l as [|x l IH]; simpl; [reflexivity|].
  rewrite insert_sorted_perm. now constructor.
Qed.

Lemma existsb_eqb_In (x : string) (l : list string) :
  existsb (String.eqb x) l = true <-> In x l.
Proof.
  rewrite existsb_exists. split.
  - intros [y [Hin Heq]]. apply String.eqb_eq in Heq. now subst.
  - intros Hin. exists x. split; [exact Hin | apply String.eqb_refl].
Qed.

Lemma In_obj_values (b : obj string) (t : string) :
  In t (obj_values b) <-> exists cond, In (cond, t) b.
Proof.
  unfold obj_values. rewrite in_map_iff. split.
  - intros [[c t'] [Heq Hin]]. simpl in Heq. subst. now exists c.
  - intros [c Hin]. now exists (c, t).
Qed.

Lemma inFlow_step_node (nodeId : string) (fl : Flow) :
  existsb (fun s => String.eqb (node s) nodeId) (steps fl) = true
  <-> step_node_of nodeId fl.
Proof.
  unfold step_node_of. rewrite existsb_exists.
  split; intros [s [Hin H]]; exists s; split; auto;
    now apply String.eqb_eq.
Qed.

Lemma branchTarget_branch_target (nodeId : string) (fl : Flow) :
  existsb (is_branch_target nodeId) (steps fl) = true
  <-> branch_target_of nodeId fl.
Proof.
  unfold branch_target_of, is_branch_target. rewrite existsb_exists. split.
  - intros [s [Hin H]]. destruct (then_ s) as [|b] eqn:E; [discriminate|].
    apply existsb_eqb_In, In_obj_values in H as [cond Hc].
    now exists s, b, cond.
  - intros [s [b [cond [Hin [Hthen Hc]]]]]. exists s. split; [exact Hin|].
    rewrite Hthen. apply existsb_eqb_In, In_obj_values. now exists cond.
Qed.

Lemma flow_hits_spec (nodeId name : string) (fl : Flow) (fls : obj Flow) :
  (exists h, In h (flow_hits nodeId fls)
             /\ hit_name h = name /\ hit_flow h = fl)
  <-> In (name, fl) fls
      /\ (step_node_of nodeId fl \/ branch_target_of nodeId fl).
Proof.
  unfold flow_hits. split.
  - intros [h [Hin [Hn Hf]]]. apply in_flat_map in Hin as [[name' fl'] [Hin Hh]].
    destruct (existsb _ (steps fl') || existsb _ (steps fl')) eqn:E;
      [|destruct Hh].
    destruct Hh as [<-|[]]. simpl in Hn, Hf. subst. split; [exact Hin|].
    apply orb_true_iff in E as [E|E].
    + left. now apply inFlow_step_node.
    + right. now apply branchTarget_branch_target.
  - intros [Hin Hor].
    assert (E : existsb (fun s => String.eqb (node s) nodeId) (steps fl)
                || existsb (is_branch_target nodeId) (steps fl) = true).
    { apply orb_true_iff. destruct Hor as [H|H].
      - left. now apply inFlow_step_node.
      - right. now apply branchTarget_branch_target. }
    eexists. split.
    + apply in_flat_map. exists (name, fl). split; [exact Hin|].
      cbn beta iota. rewrite E. left. reflexivity.
    + split; reflexivity.
Qed.

(** C6, as amended: on an id absent from the node table, and not one of
    the property names every object inherits, the impact query yields the
    not-found outcome, reporting every known node id and exit status 1,
    whatever the edges, flows and invariants mention; on a present id it
    succeeds with exit status 0 and reports exactly the edges without
    a truthy [_comment] whose [from] is the id as outgoing, those whose
    [to] is the id as incoming, the [co_change] edges among each, the flows
    in which the id is a step node or a target value of a branch mapping,
    and the invariants whose scope contains the id. *)
Theorem runImpactAnalysis_spec (nodeId : string) (fg : Flowgraph) :
  (obj_get (nodes fg) nodeId = None ->
   inherited nodeId = false ->
   exists ids,
     runImpactAnalysis nodeId fg = NotFound ids
     /\ Permutation ids (keys (nodes fg))
     /\ impact_exit (runImpactAnalysis nodeId fg) = 1)
  /\
  (forall n,
      obj_get (nodes fg) nodeId = Some n ->
      exists report,
        runImpactAnalysis nodeId fg = Found n report
        /\ impact_exit (runImpactAnalysis nodeId fg) = 0
        /\ (forall e, In e (outgoing report)
                      <-> In e (edges fg)
                          /\ JsString.truthy_opt (_comment e) = false
                          /\ from e = nodeId)
        /\ (forall e, In e (incoming report)
                      <-> In e (edges fg)
                          /\ JsString.truthy_opt (_comment e) = false
                          /\ to e = nodeId)
        /\ (forall e, In e (cochangeOut report)
                      <-> In e (outgoing report) /\ rel e = "co_change")
        /\ (forall e, In e (cochangeIn report)
                      <-> In e (incoming report) /\ rel e = "co_change")
        /\ (forall name fl,
               (exists h, In h (containingFlows report)
                          /\ hit_name h = name /\ hit_flow h = fl)
               <-> In (name, fl) (flows fg)
                   /\ (step_node_of nodeId fl \/ branch_target_of nodeId fl))
        /\ (forall inv, In inv (scopedInvariants report)
                        <-> In inv (invariants fg) /\ In nodeId (scope inv))).
Proof.
  unfold runImpactAnalysis. split.
  - intros Hnone _. rewrite Hnone. eexists. split; [reflexivity|].
    split; [apply sort_perm | reflexivity].
  - intros n Hsome. rewrite Hsome. eexists. split; [reflexivity|].
    cbn [impact_exit outgoing incoming cochangeOut cochangeIn
         containingFlows scopedInvariants].
    split; [reflexivity|].
    split; [|split; [|split; [|split; [|split]]]].
    + intros e. rewrite !filter_In, negb_true_iff, String.eqb_eq. tauto.
    + intros e. rewrite !filter_In, negb_true_iff, String.eqb_eq. tauto.
    + intros e. rewrite (filter_In (fun e => String.eqb (rel e) "co_change")).
      now rewrite String.eqb_eq.
    + intros e. rewrite (filter_In (fun e => String.eqb (rel e) "co_change")).
      now rewrite String.eqb_eq.
    + intros name fl. apply flow_hits_spec.
    + intros inv. now rewrite filter_In, existsb_eqb_In.
Qed.

Lemma runImpactAnalysis_spec_witness :
  (exists ids,
      runImpactAnalysis "method:Ghost"
        (Examples.doc Examples.two_nodes
           [Examples.edge "table:tasks" "method:Ghost" "co_change"] [] [])
      = NotFound ids
      /\ Permutation ids (keys Examples.two_nodes)
      /\ impact_exit
           (runImpactAnalysis "method:Ghost"
              (Examples.doc Examples.two_nodes
                 [Examples.edge "table:tasks" "method:Ghost" "co_change"]
                 [] []))
         = 1)
  /\ (exists report,
         runImpactAnalysis "table:tasks"
           (Examples.doc Examples.two_nodes [Examples.co_change_edge] [] [])
         = Found (Examples.plain "table" "schema.sql:1") report
         /\ outgoing report = [Examples.co_change_edge]
         /\ incoming report = []).
Proof.
  split.
  - apply (proj1 (runImpactAnalysis_spec "method:Ghost"
                    (Examples.doc Examples.two_nodes
                       [Examples.edge "table:tasks" "method:Ghost" "co_change"]
                       [] []))); reflexivity.
  - destruct (proj2 (runImpactAnalysis_spec "table:tasks"
                       (Examples.doc Examples.two_nodes
                          [Examples.co_change_edge] [] []))
                    (Examples.plain "table" "schema.sql:1") eq_refl)
      as [report [Hrun _]].
    exists report. split; [exact Hrun|].
    vm_compute in Hrun. injection Hrun as <-. split; reflexivity.
Defined.

(** C6 fails as stated: the edge below has [from] equal to the queried id,
    which is in the node table, but it carries a [_comment], and the
    outgoing list of the report is empty. *)
Lemma impact_omits_commented_edge :
  In Examples.commented_edge
     (edges (Examples.doc Examples.two_nodes [Examples.commented_edge] [] []))
  /\ from Examples.commented_edge = "table:tasks"
  /\ exists n report,
      runImpactAnalysis "table:tasks"
        (Examples.doc Examples.two_nodes [Examples.commented_edge] [] [])
      = Found n report
      /\ outgoing report = []
      /\ ~ In Examples.commented_edge (outgoing report).
Proof.
  split; [now left|]. split; [reflexivity|].
  eexists. eexists. split; [reflexivity|].
  split; [reflexivity | intros []].
Qed.

(** ** Flow verification *)

Lemma is_nil_app {A : Type} (l1 l2 : list A) :
  is_nil (l1 ++ l2) = is_nil l1 && is_nil l2.
Proof.
  destruct l1; reflexivity.
Qed.

Lemma is_nil_true {A : Type} (l : list A) : is_nil l = true <-> l = [].
Proof.
  destruct l; simpl; split; congruence.
Qed.

Lemma note_missing_fold (nds : obj Node) (ids : list string)
      (ok : bool) (acc : list string) :
  fold_left (note_missing nds) ids (ok, acc)
  = (ok && is_nil (filter (fun i => negb (has_key nds i)) ids),
     (acc ++ filter (fun i => negb (has_key nds i)) ids)%list).
Proof.
  revert ok acc. induction ids as [|i ids IH]; intros ok acc; simpl.
  - now rewrite andb_true_r, app_nil_r.
  - unfold note_missing at 2. destruct (negb (has_key nds i)); cbn [snd].
    + rewrite IH. simpl. rewrite andb_false_r.
      now rewrite <- app_assoc.
    + apply IH.
Qed.

Lemma existence_target_fold (nds : obj Node) (ts : list string)
      (st : bool * list string) :
  fold_left (existence_target nds) ts st
  = fold_left (note_missing nds) (filter (fun t => negb (terminal t)) ts) st.
Proof.
  revert st. induction ts as [|t ts IH]; intros st; simpl; [reflexivity|].
  unfold existence_target at 2.
  destruct (negb (terminal t)); simpl; apply IH.
Qed.

Lemma existence_step_fold (nds : obj Node) (ss : list Step)
      (st : bool * list string) :
  fold_left (existence_step nds) ss st
  = fold_left (note_missing nds) (checked_ids {| trigger := ""; steps := ss |})
              st.
Proof.
  unfold checked_ids. cbn [steps].
  revert st. induction ss as [|s ss IH]; intros st; simpl; [reflexivity|].
  rewrite fold_left_app, IH. f_equal.
  unfold existence_step. destruct (then_ s); simpl; [reflexivity|].
  apply existence_target_fold.
Qed.

(** The existence loop ends with the absent ids in scan order, and with
    [allExist] still set exactly when there is none. *)
Lemma existence_scan_missing (nds : obj Node) (fl : Flow) :
  existence_scan nds fl = (is_nil (missing_ids nds fl), missing_ids nds fl).
Proof.
  unfold existence_scan. rewrite existence_step_fold, note_missing_fold.
  reflexivity.
Qed.

Lemma checked_ids_spec (fl : Flow) (i : string) :
  In i (checked_ids fl)
  <-> exists s,
      In s (steps fl)
      /\ (node s = i
          \/ exists b cond,
            then_ s = ThenBranch b /\ In (cond, i) b /\ terminal i = false).
Proof.
  unfold checked_ids. rewrite in_flat_map. split.
  - intros [s [Hin [Hi|Hi]]]; exists s; (split; [exact Hin|]);
      [now left|]. right.
    destruct (then_ s) as [|b]; [destruct Hi|].
    apply filter_In in Hi as [Hv Ht]. apply In_obj_values in Hv as [cond Hc].
    exists b, cond. repeat split; auto. now apply negb_true_iff.
  - intros [s [Hin [Hi|[b [cond [Hb [Hc Ht]]]]]]]; exists s;
      (split; [exact Hin|]); [now left|]. right.
    rewrite Hb. apply filter_In. split.
    + apply In_obj_values. now exists cond.
    + now apply negb_true_iff.
Qed.

Lemma missing_ids_nil (nds : obj Node) (fl : Flow) :
  missing_ids nds fl = []
  <-> forall i, In i (checked_ids fl) -> has_key nds i = true.
Proof.
  unfold missing_ids. split.
  - intros Hnil i Hin. destruct (has_key nds i) eqn:E; [reflexivity|].
    assert (Hf : In i (filter (fun i => negb (has_key nds i)) (checked_ids fl)))
      by (apply filter_In; split; [exact Hin | now rewrite E]).
    rewrite Hnil in Hf. destruct Hf.
  - intros Hall.
    destruct (filter (fun i => negb (has_key nds i)) (checked_ids fl))
      as [|i l] eqn:E; [reflexivity|].
    assert (Hf : In i (filter (fun i => negb (has_key nds i)) (checked_ids fl)))
      by (rewrite E; now left).
    apply filter_In in Hf as [Hin Habs]. rewrite (Hall i Hin) in Habs.
    discriminate.
Qed.

Lemma flow_existence_pass (nds : obj Node) (name : string) (fl : Flow) :
  (forall i, In i (checked_ids fl) -> has_key nds i = true) ->
  flow_existence nds name fl
  = [record PASS flow name
            ("All " ++ JsString.string_of_nat (List.length (steps fl))
                    ++ " step nodes exist")].
Proof.
  intros Hall. unfold flow_existence. rewrite existence_scan_missing.
  apply missing_ids_nil in Hall. now rewrite Hall.
Qed.

Lemma flow_existence_fail (nds : obj Node) (name : string) (fl : Flow) :
  (exists i, In i (checked_ids fl) /\ has_key nds i = false) ->
  flow_existence nds name fl
  = [record FAIL flow name
            ("Missing nodes: " ++ JsString.join ", " (missing_ids nds fl))].
Proof.
  intros [i [Hin Habs]]. unfold flow_existence.
  rewrite existence_scan_missing.
  assert (Hmiss : In i (missing_ids nds fl)).
  { apply filter_In. split; [exact Hin | now rewrite Habs]. }
  destruct (missing_ids nds fl); [destruct Hmiss | reflexivity].
Qed.

(** C4, as amended: the existence check of a flow pushes exactly one
    record.  The ids it looks up are every step's node and every target,
    other than next, DONE and FAIL, of a step whose [then] is a mapping; a
    [then] that is a plain string is never looked up, so a jump to a node id
    is not checked.  When none of the looked-up ids is a property name
    every object inherits: if every looked-up id is in the node table the
    record is PASS; otherwise it is a FAIL whose message lists, in scan
    order, exactly the looked-up ids that are absent. *)
Theorem flow_existence_spec (nds : obj Node) (name : string) (fl : Flow) :
  (forall i,
      In i (checked_ids fl)
      <-> exists s,
        In s (steps fl)
        /\ (node s = i
            \/ exists b cond,
              then_ s = ThenBranch b /\ In (cond, i) b /\ terminal i = false))
  /\
  (plain_names (checked_ids fl) = true ->
   ((forall i, In i (checked_ids fl) -> has_key nds i = true) ->
    flow_existence nds name fl
    = [record PASS flow name
              ("All " ++ JsString.string_of_nat (List.length (steps fl))
                      ++ " step nodes exist")])
   /\
   ((exists i, In i (checked_ids fl) /\ has_key nds i = false) ->
    flow_existence nds name fl
    = [record FAIL flow name
              ("Missing nodes: " ++ JsString.join ", " (missing_ids nds fl))]
    /\ forall i, In i (missing_ids nds fl)
                 <-> In i (checked_ids fl) /\ has_key nds i = false)).
Proof.
  split; [intros i; apply checked_ids_spec|]. intros _. split.
  - apply flow_existence_pass.
  - intros Hex. split; [now apply flow_existence_fail|].
    intros j. unfold missing_ids. rewrite filter_In, negb_true_iff.
    reflexivity.
Qed.

Lemma flow_existence_spec_witness :
  flow_existence Examples.two_nodes "create-task" Examples.retry_flow
  = [record PASS flow "create-task" "All 1 step nodes exist"]
  /\ flow_existence Examples.two_nodes "create-task" Examples.ghost_flow
     = [record FAIL flow "create-task" "Missing nodes: method:Ghost"].
Proof.
  split.
  - apply (proj1 (proj2 (flow_existence_spec Examples.two_nodes "create-task"
                           Examples.retry_flow) eq_refl)).
    intros i [<-|[<-|[]]]; reflexivity.
  - apply (proj2 (proj2 (flow_existence_spec Examples.two_nodes "create-task"
                           Examples.ghost_flow) eq_refl)).
    exists "method:Ghost". split; [right; now left | reflexivity].
Defined.

(** C4 fails as stated: the step jumps to ["method:Ghost"], a non-terminal
    [then] value that is absent from the node table, and the existence
    check records PASS. *)
Lemma flow_existence_ignores_jump :
  then_ (Examples.step "method:TaskRepository.create" (ThenStr "method:Ghost"))
  = ThenStr "method:Ghost"
  /\ terminal "method:Ghost" = false
  /\ has_key Examples.two_nodes "method:Ghost" = false
  /\ flow_existence Examples.two_nodes "create-task" Examples.jump_flow
     = [record PASS flow "create-task" "All 1 step nodes exist"].
Proof.
  repeat split.
Qed.

Lemma reach_entry_fold (name : string) (fl : Flow) (b : obj string)
      (acc : list Result) (ok : bool) :
  fold_left (reach_entry name fl) b (acc, ok)
  = ((acc ++ map (unreachable_warning name)
             (filter (fun entry : string * string =>
                        negb (terminal (snd entry))
                        && negb (inSteps fl (snd entry))) b))%list,
     ok && is_nil (filter (fun entry : string * string =>
                             negb (terminal (snd entry))
                             && negb (inSteps fl (snd entry))) b)).
Proof.
  revert acc ok. induction b as [|[cond target] b IH]; intros acc ok; simpl.
  - now rewrite app_nil_r, andb_true_r.
  - destruct (negb (terminal target) && negb (inSteps fl target)); simpl.
    + rewrite IH. cbn [fst]. rewrite <- app_assoc, andb_false_r. reflexivity.
    + apply IH.
Qed.

Lemma reach_step_fold (name : string) (fl : Flow) (ss : list Step)
      (acc : list Result) (ok : bool) :
  fold_left (reach_step name fl) ss (acc, ok)
  = ((acc ++ map (unreachable_warning name) (violations_in fl ss))%list,
     ok && is_nil (violations_in fl ss)).
Proof.
  unfold violations_in.
  revert acc ok. induction ss as [|s ss IH]; intros acc ok; simpl.
  - now rewrite app_nil_r, andb_true_r.
  - unfold reach_step at 2. destruct (then_ s) as [|b]; simpl.
    + apply IH.
    + rewrite reach_entry_fold, IH, map_app, is_nil_app.
      now rewrite <- app_assoc, andb_assoc.
Qed.

Lemma violations_spec (fl : Flow) (cond target : string) :
  In (cond, target) (violations fl)
  <-> exists s b,
      In s (steps fl) /\ then_ s = ThenBranch b /\ In (cond, target) b
      /\ terminal target = false /\ ~ step_node_of target fl.
Proof.
  unfold violations, violations_in. rewrite in_flat_map. split.
  - intros [s [Hin H]]. destruct (then_ s) as [|b] eqn:E; [destruct H|].
    apply filter_In in H as [Hb Hc]. cbn [snd] in Hc.
    apply andb_true_iff in Hc as [Ht Hs].
    exists s, b. repeat split; auto.
    + now apply negb_true_iff.
    + intros Hstep. apply inFlow_step_node in Hstep.
      unfold inSteps in Hs. rewrite Hstep in Hs. discriminate.
  - intros [s [b [Hin [Hb [Hc [Ht Hn]]]]]]. exists s. split; [exact Hin|].
    rewrite Hb. apply filter_In. split; [exact Hc|]. cbn [snd].
    rewrite Ht. cbn [negb andb]. apply negb_true_iff.
    destruct (inSteps fl target) eqn:E; [|reflexivity].
    exfalso. apply Hn. now apply inFlow_step_node.
Qed.

Lemma no_branching_no_violation (fl : Flow) :
  forallb (fun s => negb (is_branching s)) (steps fl) = true ->
  violations fl = [].
Proof.
  unfold violations, violations_in. intros H.
  induction (steps fl) as [|s ss IH]; [reflexivity|].
  simpl in *. apply andb_true_iff in H as [Hs Hss].
  unfold is_branching in Hs. destruct (then_ s); [|discriminate].
  simpl. now apply IH.
Qed.

Lemma no_branching_checked_ids (fl : Flow) :
  forallb (fun s => negb (is_branching s)) (steps fl) = true ->
  checked_ids fl = map node (steps fl).
Proof.
  unfold checked_ids. intros H.
  induction (steps fl) as [|s ss IH]; [reflexivity|].
  simpl in *. apply andb_true_iff in H as [Hs Hss].
  unfold is_branching in Hs. destruct (then_ s); [|discriminate].
  simpl. now rewrite IH.
Qed.

(** C5, as amended: in every flow, each target other than next, DONE and
    FAIL in the [then] mapping of a step must be the node of some step of
    the same flow, the branching step itself included.  Each violating
    entry pushes exactly one WARN naming its condition label and target, in
    scan order, and a single PASS follows only when there is no violation.
    A flow without branching steps always gets the reachability PASS, and,
    when none of its step nodes is a property name every object inherits,
    gets the existence PASS exactly when every step node is in the node
    table. *)
Theorem flow_reachability_spec (name : string) (fl : Flow) :
  flow_reachability name fl
  = (map (unreachable_warning name) (violations fl)
       ++ (if is_nil (violations fl)
           then [record PASS flow name "All branch targets reachable"]
           else []))%list
  /\
  (forall cond target,
      In (cond, target) (violations fl)
      <-> exists s b,
        In s (steps fl) /\ then_ s = ThenBranch b /\ In (cond, target) b
        /\ terminal target = false /\ ~ step_node_of target fl)
  /\
  (forallb (fun s => negb (is_branching s)) (steps fl) = true ->
   flow_reachability name fl
   = [record PASS flow name "All branch targets reachable"]
   /\ forall nds,
       plain_names (map node (steps fl)) = true ->
       (flow_existence nds name fl
        = [record PASS flow name
                  ("All " ++ JsString.string_of_nat (List.length (steps fl))
                          ++ " step nodes exist")]
        <-> forall s, In s (steps fl) -> has_key nds (node s) = true)).
Proof.
  assert (Hreach :
            flow_reachability name fl
            = (map (unreachable_warning name) (violations fl)
                 ++ (if is_nil (violations fl)
                     then [record PASS flow name "All branch targets reachable"]
                     else []))%list).
  { unfold flow_reachability. rewrite reach_step_fold.
    fold (violations fl). cbn [app andb].
    destruct (is_nil (violations fl)); [reflexivity|].
    now rewrite app_nil_r. }
  split; [exact Hreach|]. split; [apply violations_spec|].
  intros Hlin. split.
  - rewrite Hreach, (no_branching_no_violation fl Hlin). reflexivity.
  - intros nds _.
    pose proof (flow_existence_pass nds name fl) as Hpass.
    pose proof (flow_existence_fail nds name fl) as Hfail.
    rewrite (no_branching_checked_ids fl Hlin) in Hpass, Hfail.
    split.
    + intros Hrec s Hin.
      destruct (has_key nds (node s)) eqn:E; [reflexivity|].
      rewrite Hfail in Hrec; [discriminate|].
      exists (node s). split; [now apply in_map | exact E].
    + intros Hall. apply Hpass. intros i Hi.
      apply in_map_iff in Hi as [s [<- Hin]]. now apply Hall.
Qed.

Lemma flow_reachability_spec_witness :
  flow_reachability "create-task" Examples.linear_flow
  = [record PASS flow "create-task" "All branch targets reachable"]
  /\ (flow_existence Examples.two_nodes "create-task" Examples.linear_flow
      = [record PASS flow "create-task" "All 2 step nodes exist"]
      <-> forall s, In s (steps Examples.linear_flow) ->
                    has_key Examples.two_nodes (node s) = true).
Proof.
  destruct (proj2 (proj2 (flow_reachability_spec "create-task"
                            Examples.linear_flow)) eq_refl) as [Hr He].
  split; [exact Hr | exact (He Examples.two_nodes eq_refl)].
Defined.

(** C5 fails as stated, twice.  The only branch of [retry_flow] targets the
    node of the branching step itself, no other step has that node, and the
    reachability check records PASS without any WARN.  And [linear_flow]
    has no branching step, yet its existence check records FAIL because a
    step node is absent from the node table. *)
Lemma reachability_self_target_and_linear_missing :
  (exists s,
      steps Examples.retry_flow = [s]
      /\ then_ s = ThenBranch [("retry", node s)]
      /\ terminal (node s) = false
      /\ flow_reachability "create-task" Examples.retry_flow
         = [record PASS flow "create-task" "All branch targets reachable"])
  /\ forallb (fun s => negb (is_branching s)) (steps Examples.linear_flow)
     = true
  /\ flow_existence Examples.two_nodes "create-task" Examples.linear_flow
     = [record FAIL flow "create-task" "Missing nodes: method:Ghost"].
Proof.
  split; [|split; reflexivity].
  eexists. repeat split.
Qed.

(** ** Substrings and quoted literals *)

Lemma prefix_app (p s : string) :
  prefix p s = true <-> exists post, s = p ++ post.
Proof.
  revert s. induction p as [|a p IH]; intros s; simpl.
  - destruct s; split; eauto.
  - destruct s as [|b s]; simpl.
    + split; [discriminate | intros [post H]; discriminate].
    + destruct (ascii_dec a b) as [->|Hne].
      * rewrite IH. split; intros [post H]; exists post; congruence.
      * split; [discriminate | intros [post H]; congruence].
Qed.

(** [includes] is the substring test. *)
Lemma includes_occurs (pat s : string) :
  JsString.includes pat s = true <-> occurs pat s.
Proof.
  unfold occurs. split.
  - induction s as [|a s IH]; cbn [JsString.includes];
      destruct (prefix pat _) eqn:Hp.
    + intros _. apply prefix_app in Hp as [post H]. now exists "", post.
    + discriminate.
    + intros _. apply prefix_app in Hp as [post H]. now exists "", post.
    + intros H. destruct (IH H) as [pre [post Hs]].
      exists (String a pre), post. simpl. now rewrite Hs.
  - intros [pre [post ->]]. induction pre as [|a pre IH].
    + assert (Hp : prefix pat (pat ++ post) = true)
        by (apply prefix_app; now exists post).
      change ("" ++ pat ++ post) with (pat ++ post).
      destruct (pat ++ post); cbn [JsString.includes]; now rewrite Hp.
    + change (String a pre ++ pat ++ post)
        with (String a (pre ++ pat ++ post)).
      cbn [JsString.includes]. rewrite IH. now destruct (prefix pat _).
Qed.

Lemma search_found (r : Re.re) (prev : option ascii) (s : string) :
  Re.search r prev s = true ->
  exists pre suf prev',
    s = pre ++ suf /\ Re.matchk r prev' suf (fun _ _ => true) = true.
Proof.
  revert prev. induction s as [|a s IH]; intros prev; cbn [Re.search];
    destruct (Re.matchk r prev _ _) eqn:Hm.
  - intros _. now exists "", "", prev.
  - discriminate.
  - intros _. now exists "", (String a s), prev.
  - intros H. destruct (IH _ H) as [pre [suf [prev' [-> Hm']]]].
    now exists (String a pre), suf, prev'.
Qed.

Lemma search_at (r : Re.re) (prev : option ascii) (pre suf : string) :
  (forall p, Re.matchk r p suf (fun _ _ => true) = true) ->
  Re.search r prev (pre ++ suf) = true.
Proof.
  intros Hm. revert prev. induction pre as [|a pre IH]; intros prev.
  - change ("" ++ suf) with suf. destruct suf; cbn [Re.search];
      now rewrite Hm.
  - change (String a pre ++ suf) with (String a (pre ++ suf)).
    cbn [Re.search]. rewrite IH. now destruct (Re.matchk r prev _ _).
Qed.

Lemma matchk_lit_inv (n : string) (prev : option ascii) (s : string)
      (k : option ascii -> string -> bool) :
  Re.matchk (Re.lit n) prev s k = true ->
  exists post prev', s = n ++ post /\ k prev' post = true.
Proof.
  revert prev s. induction n as [|a n IH]; intros prev s; simpl.
  - intros H. now exists s, prev.
  - destruct s as [|b s]; [discriminate|].
    destruct (Ascii.eqb_spec a b) as [<-|_]; [|discriminate].
    intros Hm. destruct (IH _ _ Hm) as [post [prev' [-> Hk]]].
    now exists post, prev'.
Qed.

Lemma matchk_lit_app (n post : string) (prev : option ascii)
      (k : option ascii -> string -> bool) :
  (forall p, k p post = true) ->
  Re.matchk (Re.lit n) prev (n ++ post) k = true.
Proof.
  intros Hk. revert prev. induction n as [|a n IH]; intros prev; simpl.
  - apply Hk.
  - rewrite Ascii.eqb_refl. apply IH.
Qed.

(** The quoted pattern matches exactly where the name stands between two
    quote characters. *)
Lemma quotedPattern_spec (name s : string) :
  has s (Patterns.quotedPattern name) = true <-> quoted_occurrence name s.
Proof.
  unfold has, Patterns.quotedPattern, Re.test, quoted_occurrence. split.
  - intros H. apply search_found in H as [pre [suf [prev' [-> Hm]]]].
    cbn [Re.seqs Re.matchk] in Hm.
    destruct suf as [|q1 suf]; [discriminate|].
    destruct (Re.is_quote q1) eqn:Hq1; [|discriminate].
    apply matchk_lit_inv in Hm as [post [p' [-> Hk]]].
    destruct post as [|q2 post]; [discriminate|].
    destruct (Re.is_quote q2) eqn:Hq2; [|discriminate].
    now exists pre, q1, q2, post.
  - intros [pre [q1 [q2 [post [Hq1 [Hq2 ->]]]]]].
    apply search_at. intros p. cbn [Re.seqs Re.matchk].
    rewrite Hq1. apply matchk_lit_app.
    intros p'. now rewrite Hq2.
Qed.

Lemma quoted_occurrence_occurs (name s : string) :
  quoted_occurrence name s -> occurs name s.
Proof.
  intros [pre [q1 [q2 [post [_ [_ ->]]]]]].
  exists (pre ++ String q1 ""), (String q2 post).
  induction pre as [|a pre IH]; simpl; [reflexivity|].
  now rewrite IH.
Qed.

(** ** Node verification *)

(** C9: for a node of kind event whose resolved file is readable (the
    verifier reads it and gets non-empty text), the existence check pushes
    exactly one record; it is PASS exactly when the event name occurs in the
    text between two quote characters or occurs in it as bare text, and it
    is FAIL otherwise. *)
Theorem event_node_existence
        (fs : string -> option string)
        (resolve : string -> string -> string -> string)
        (i : string) (n : Node) (root projectRoot : string) :
  kind n = "event" ->
  falsy (readSource fs (fst (resolveLoc resolve (loc n) root projectRoot)))
  = false ->
  (map status (verifyNode fs resolve i n root projectRoot) = [PASS]
   <-> quoted_occurrence
         (JsString.replace "event:" "" i)
         (text (readSource fs
                  (fst (resolveLoc resolve (loc n) root projectRoot))))
       \/ occurs
            (JsString.replace "event:" "" i)
            (text (readSource fs
                     (fst (resolveLoc resolve (loc n) root projectRoot)))))
  /\
  (~ (quoted_occurrence
        (JsString.replace "event:" "" i)
        (text (readSource fs
                 (fst (resolveLoc resolve (loc n) root projectRoot))))
      \/ occurs
           (JsString.replace "event:" "" i)
           (text (readSource fs
                    (fst (resolveLoc resolve (loc n) root projectRoot))))) ->
   map status (verifyNode fs resolve i n root projectRoot) = [FAIL]).
Proof.
  intros Hkind Hread. unfold verifyNode. rewrite Hkind. cbn [String.eqb].
  unfold verifyEventNode.
  destruct (resolveLoc resolve (loc n) root projectRoot) as [filePath line].
  cbn [fst] in *. rewrite Hread.
  set (src := text (readSource fs filePath)).
  set (name := JsString.replace "event:" "" i).
  assert (Hiff : has src (Patterns.quotedPattern name) || has src (PStr name)
                 = true
                 <-> quoted_occurrence name src \/ occurs name src).
  { rewrite orb_true_iff, quotedPattern_spec. unfold has.
    now rewrite includes_occurs. }
  destruct (has src (Patterns.quotedPattern name) || has src (PStr name));
    cbn [map status record].
  - split; [|intros Hno; exfalso; apply Hno; now apply Hiff].
    split; [intros _; now apply Hiff | reflexivity].
  - split; [|reflexivity].
    split; [discriminate|]. intros H. apply Hiff in H. discriminate.
Qed.

Lemma event_node_existence_witness :
  map status
      (verifyNode Examples.tree Examples.resolve "event:task.created"
                  (Examples.plain "event" "events.ts") "src/" "/proj")
  = [PASS]
  <-> quoted_occurrence "task.created" Examples.events_ts
      \/ occurs "task.created" Examples.events_ts.
Proof.
  exact (proj1 (event_node_existence
                  Examples.tree Examples.resolve "event:task.created"
                  (Examples.plain "event" "events.ts") "src/" "/proj"
                  eq_refl eq_refl)).
Defined.

Lemma not_includes_not_occurs (pat s : string) :
  ~ occurs pat s -> JsString.includes pat s = false.
Proof.
  intros H. destruct (JsString.includes pat s) eqn:E; [|reflexivity].
  exfalso. apply H. now apply includes_occurs.
Qed.

(** C2, as amended: in node verification every record a type node pushes
    after its existence record is a FAIL, and once the type declaration has
    been found each declared schema name or enumerated value that does not
    occur in the file is recorded as FAIL; every record a table node pushes
    after its existence record is a WARN, and once the CREATE TABLE
    statement has been found each [fk] entry whose referenced name does not
    occur in the file is recorded as WARN. *)
Theorem optional_field_checks
        (fs : string -> option string)
        (resolve : string -> string -> string -> string)
        (i : string) (n : Node) (root projectRoot : string) :
  (forall r, In r (tl (verifyTypeNode fs resolve i n root projectRoot)) ->
             status r = FAIL)
  /\
  (forall r, In r (tl (verifyTableNode fs resolve i n root projectRoot)) ->
             status r = WARN)
  /\
  (falsy (readSource fs (fst (resolveLoc resolve (loc n) root projectRoot)))
   = false ->
   existsb
     (has (text (readSource fs
                   (fst (resolveLoc resolve (loc n) root projectRoot)))))
     (Patterns.typePatterns (JsString.replace "type:" "" i)) = true ->
   (forall sch,
       schema n = Some sch -> sch <> "" ->
       ~ occurs sch
           (text (readSource fs
                    (fst (resolveLoc resolve (loc n) root projectRoot)))) ->
       In (record FAIL structural i ("Schema '" ++ sch ++ "' not found"))
          (tl (verifyTypeNode fs resolve i n root projectRoot)))
   /\
   (forall vals val,
       values n = Some vals -> In val vals ->
       ~ occurs val
           (text (readSource fs
                    (fst (resolveLoc resolve (loc n) root projectRoot)))) ->
       In (record FAIL structural i ("Enum value '" ++ val ++ "' not found"))
          (tl (verifyTypeNode fs resolve i n root projectRoot))))
  /\
  (falsy (readSource fs (fst (resolveLoc resolve (loc n) root projectRoot)))
   = false ->
   has (text (readSource fs
                (fst (resolveLoc resolve (loc n) root projectRoot))))
       (Patterns.tablePattern (JsString.replace "table:" "" i)) = true ->
   forall fks f m,
     fk n = Some fks -> In f fks -> fk_match f = Some m ->
     ~ occurs m
         (text (readSource fs
                  (fst (resolveLoc resolve (loc n) root projectRoot)))) ->
     In (record WARN structural i ("FK to '" ++ m ++ "' not in DDL"))
        (tl (verifyTableNode fs resolve i n root projectRoot))).
Proof.
  unfold verifyTypeNode, verifyTableNode.
  destruct (resolveLoc resolve (loc n) root projectRoot) as [filePath line].
  cbn [fst].
  set (src := text (readSource fs filePath)).
  destruct (falsy (readSource fs filePath)).
  { repeat split; try discriminate; intros r []. }
  split; [|split; [|split]].
  - destruct (existsb (has src) _); cbn [negb]; [|intros r []].
    intros r Hin.
    assert (Hopt :
              In r (match schema n with
                    | Some sch =>
                        if JsString.truthy sch && negb (has src (PStr sch))
                        then [record FAIL structural i
                                     ("Schema '" ++ sch ++ "' not found")]
                        else []
                    | None => []
                    end ++
                    match values n with
                    | Some vals =>
                        flat_map
                          (fun val =>
                             if negb (has src (PStr val))
                             then [record FAIL structural i
                                          ("Enum value '" ++ val
                                                          ++ "' not found")]
                             else []) vals
                    | None => []
                    end)%list).
    { destruct (truthy_line line) as [ln|];
        [destruct (existsb (has (getRegion src ln 5)) _)|]; exact Hin. }
    apply in_app_or in Hopt as [H|H].
    + destruct (schema n) as [sch|]; [|destruct H].
      destruct (JsString.truthy sch && negb (has src (PStr sch)));
        [|destruct H].
      destruct H as [<-|[]]. reflexivity.
    + destruct (values n) as [vals|]; [|destruct H].
      apply in_flat_map in H as [val [_ H]].
      destruct (negb (has src (PStr val))); [|destruct H].
      destruct H as [<-|[]]. reflexivity.
  - destruct (has src (Patterns.tablePattern _)); cbn [negb tl];
      [|intros r []].
    intros r Hin. destruct (fk n) as [fks|]; [|destruct Hin].
    apply in_flat_map in Hin as [f [_ H]].
    destruct (fk_match f) as [m|]; [|destruct H].
    destruct (negb (has src (PStr m))); [|destruct H].
    destruct H as [<-|[]]. reflexivity.
  - intros _ Hfound. rewrite Hfound. cbn [negb]. split.
    + intros sch Hsch Hne Hno. rewrite Hsch.
      assert (Ht : JsString.truthy sch = true).
      { unfold JsString.truthy.
        destruct (String.eqb_spec sch ""); [congruence | reflexivity]. }
      assert (Hh : has src (PStr sch) = false)
        by (apply not_includes_not_occurs, Hno).
      rewrite Ht, Hh. cbn [andb negb].
      destruct (truthy_line line) as [ln|];
        [destruct (existsb (has (getRegion src ln 5)) _)|];
        cbn [app tl]; now left.
    + intros vals val Hvals Hin Hno. rewrite Hvals.
      assert (Hv : In (record FAIL structural i
                              ("Enum value '" ++ val ++ "' not found"))
                      (flat_map
                         (fun val =>
                            if negb (has src (PStr val))
                            then [record FAIL structural i
                                         ("Enum value '" ++ val
                                                         ++ "' not found")]
                            else []) vals)).
      { apply in_flat_map. exists val. split; [exact Hin|].
        cbn [has]. rewrite (not_includes_not_occurs _ _ Hno). now left. }
      destruct (truthy_line line) as [ln|];
        [destruct (existsb (has (getRegion src ln 5)) _)|];
        cbn [app tl]; apply in_or_app; now right.
  - intros _ Hfound fks f m Hfk Hin Hm Hno. rewrite Hfound, Hfk.
    cbn [negb tl]. apply in_flat_map. exists f. split; [exact Hin|].
    rewrite Hm. cbn [has]. rewrite (not_includes_not_occurs _ _ Hno). now left.
Qed.

Lemma includes_false_not_occurs (pat s : string) :
  JsString.includes pat s = false -> ~ occurs pat s.
Proof.
  intros H Ho. apply includes_occurs in Ho. congruence.
Qed.

Lemma optional_field_checks_witness :
  In (record FAIL structural "type:Task" "Schema 'TaskSchema' not found")
     (tl (verifyTypeNode Examples.far_tree Examples.resolve "type:Task"
                         Examples.enum_type "src/" "/proj"))
  /\ In (record FAIL structural "type:Task" "Enum value 'pending' not found")
        (tl (verifyTypeNode Examples.far_tree Examples.resolve "type:Task"
                            Examples.enum_type "src/" "/proj"))
  /\ In (record WARN structural "table:tasks" "FK to 'users' not in DDL")
        (tl (verifyTableNode Examples.tree Examples.resolve "table:tasks"
                             Examples.fk_table "src/" "/proj")).
Proof.
  destruct (optional_field_checks Examples.far_tree Examples.resolve
              "type:Task" Examples.enum_type "src/" "/proj")
    as [_ [_ [Htype _]]].
  destruct (Htype eq_refl eq_refl) as [Hschema Hvalues].
  destruct (optional_field_checks Examples.tree Examples.resolve
              "table:tasks" Examples.fk_table "src/" "/proj")
    as [_ [_ [_ Htable]]].
  split; [|split].
  - apply (Hschema "TaskSchema" eq_refl).
    + discriminate.
    + apply includes_false_not_occurs. reflexivity.
  - apply (Hvalues ["pending"] "pending" eq_refl).
    + now left.
    + apply includes_false_not_occurs. reflexivity.
  - apply (Htable eq_refl eq_refl ["owner_id -> users.id"]
                  "owner_id -> users.id" "users" eq_refl).
    + now left.
    + reflexivity.
    + apply includes_false_not_occurs. reflexivity.
Defined.

(** C2 fails as stated: the table node declares an [fk] entry whose
    referenced name is missing from the file, and the check for that
    optional field records WARN, not FAIL. *)
Lemma table_fk_check_warns :
  fk Examples.fk_table = Some ["owner_id -> users.id"]
  /\ JsString.includes "users" Examples.schema_sql = false
  /\ verifyTableNode Examples.tree Examples.resolve "table:tasks"
                     Examples.fk_table "src/" "/proj"
     = [record PASS structural "table:tasks" "Table found";
        record WARN structural "table:tasks" "FK to 'users' not in DDL"].
Proof.
  repeat split.
Qed.




(** ** A whole run *)

(** The todo example: one table, one method, one [co_change] edge and one
    invariant give two structural PASS records, one relational PASS and one
    invariant WARN; the WARN leaves the exit status at 0. *)
Example todo_run_is_clean :
  map (fun r => (category r, status r))
      (fst (runVerification Examples.tree Examples.resolve
              (Examples.doc Examples.two_nodes [Examples.co_change_edge] []
                            [Examples.audit_invariant])
              "/proj"))
  = [(structural, PASS); (structural, PASS); (relational, PASS);
     (invariant, WARN)]
  /\ snd (runVerification Examples.tree Examples.resolve
            (Examples.doc Examples.two_nodes [Examples.co_change_edge] []
                          [Examples.audit_invariant])
            "/proj")
     = 0.
Proof.
  split; vm_compute; reflexivity.
Qed.

(** With no readable file the same document fails every structural and
    relational check and the run exits with status 1. *)
Example unreadable_tree_run_fails :
  map (fun r => (category r, status r))
      (fst (runVerification Examples.empty_tree Examples.resolve
              (Examples.doc Examples.two_nodes [Examples.co_change_edge] []
                            [Examples.audit_invariant])
              "/proj"))
  = [(structural, FAIL); (structural, FAIL); (relational, FAIL);
     (invariant, FAIL)]
  /\ snd (runVerification Examples.empty_tree Examples.resolve
            (Examples.doc Examples.two_nodes [Examples.co_change_edge] []
                          [Examples.audit_invariant])
            "/proj")
     = 1.
Proof.
  split; vm_compute; reflexivity.
Qed.

(** The branch to ["method:Ghost"], which is neither a step of the flow nor
    a known node: one existence FAIL and exactly one reachability WARN
    naming the label and the target. *)
Example ghost_branch_records :
  verifyFlows [("create-task", Examples.ghost_flow)] Examples.two_nodes
  = [record FAIL flow "create-task" "Missing nodes: method:Ghost";
     record WARN flow "create-task"
            "'missing' -> 'method:Ghost' not in step list"].
Proof.
  reflexivity.
Qed.

(** The capture of the foreign-key pattern: the word after the first arrow
    that is followed by a word character. *)
Example fk_match_samples :
  fk_match "owner_id -> users.id" = Some "users"
  /\ fk_match "owner_id ->  users" = None
  /\ fk_match "a -> -> b_c d" = Some "b_c"
  /\ fk_match "no arrow" = None.
Proof.
  repeat split.
Qed.

Example empty_flow_message :
  flow_existence [] "empty" {| trigger := "t"; steps := [] |}
  = [record PASS flow "empty" "All 0 step nodes exist"].
Proof.
  reflexivity.
Qed.

(** The region around line 6 with radius 2 of a ten-line text: the two
    lines before line 6, line 6 itself and one line after it. *)
Example getRegion_lines :
  getRegion (String.concat Examples.nl
               ["l1"; "l2"; "l3"; "l4"; "l5"; "l6"; "l7"; "l8"; "l9"; "l10"])
            6 2
  = String.concat Examples.nl ["l4"; "l5"; "l6"; "l7"].
Proof.
  reflexivity.
Qed.

(* ------------------------------------------------------------------ *)
(** * Further properties of the verifier *)

Ltac break_match :=
  match goal with
  | |- context [match ?x with _ => _ end] => destruct x eqn:?
  end.

(** ** One record per edge *)

Lemma verifyEdge_single_record
      (fs : string -> option string)
      (resolve : string -> string -> string -> string)
      (e : Edge) (nds : obj Node) (root projectRoot : string) :
  exists st msg,
    verifyEdge fs resolve e nds root projectRoot
    = [record st relational (edgeId e) msg].
Proof.
  unfold verifyEdge. repeat break_match; eexists; eexists; reflexivity.
Qed.

(** X1: when no endpoint id of an edge without a truthy [_comment] is a
    property name every object inherits, the relational phase pushes exactly
    one record for every such edge, whatever its relation and whether or not
    its endpoints are in the node table and its file exists; each record is
    in the relational category and is identified by the edge it was pushed
    for. *)
Theorem relational_records_count
        (fs : string -> option string)
        (resolve : string -> string -> string -> string)
        (es : list Edge) (nds : obj Node) (root projectRoot : string) :
  forallb (fun e => plain_names [from e; to e]) (filter no_comment es)
  = true ->
  List.length (verifyEdges fs resolve es nds root projectRoot)
  = List.length (filter no_comment es)
  /\ map id (verifyEdges fs resolve es nds root projectRoot)
     = map edgeId (filter no_comment es)
  /\ forall r, In r (verifyEdges fs resolve es nds root projectRoot) ->
               category r = relational.
Proof.
  intros _. unfold verifyEdges, no_comment.
  induction es as [|e es [IHlen [IHid IHcat]]]; [repeat split; intros r []|].
  cbn [flat_map filter].
  destruct (verifyEdge_single_record fs resolve e nds root projectRoot)
    as [st [msg He]].
  destruct (JsString.truthy_opt (_comment e)); cbn [negb app].
  - repeat split; assumption.
  - rewrite He. simpl. rewrite IHlen, IHid.
    repeat split. intros r [<-|Hin]; [reflexivity | now apply IHcat].
Qed.

Lemma relational_records_count_witness :
  List.length
    (verifyEdges MoreExamples.tree Examples.resolve
                 [MoreExamples.dangling_edge; Examples.commented_edge;
                  MoreExamples.calls_edge]
                 MoreExamples.nds "src/" "/proj")
  = 2
  /\ map id
         (verifyEdges MoreExamples.tree Examples.resolve
                      [MoreExamples.dangling_edge; Examples.commented_edge;
                       MoreExamples.calls_edge]
                      MoreExamples.nds "src/" "/proj")
     = [edgeId MoreExamples.dangling_edge; edgeId MoreExamples.calls_edge].
Proof.
  destruct (relational_records_count
              MoreExamples.tree Examples.resolve
              [MoreExamples.dangling_edge; Examples.commented_edge;
               MoreExamples.calls_edge]
              MoreExamples.nds "src/" "/proj" eq_refl) as [Hlen [Hid _]].
  split; [exact Hlen | exact Hid].
Defined.

(** ** What an edge check reads, and which statuses it can give *)

(** X2: an edge check consults the file system only at the resolved file of
    the edge's [from] node.  Two source trees that agree on that one file
    give the same record; the [to] node's file is never read, and when the
    [from] id is not in the node table no file is read at all. *)
Theorem verifyEdge_reads_only_source
        (fs1 fs2 : string -> option string)
        (resolve : string -> string -> string -> string)
        (e : Edge) (nds : obj Node) (root projectRoot : string) :
  (forall fromNode,
      obj_get nds (from e) = Some fromNode ->
      fs1 (fst (resolveLoc resolve (loc fromNode) root projectRoot))
      = fs2 (fst (resolveLoc resolve (loc fromNode) root projectRoot))) ->
  verifyEdge fs1 resolve e nds root projectRoot
  = verifyEdge fs2 resolve e nds root projectRoot.
Proof.
  intros Hagree. unfold verifyEdge.
  destruct (obj_get nds (from e)) as [fromNode|]; [|reflexivity].
  destruct (obj_get nds (to e)) as [toNode|]; [|reflexivity].
  specialize (Hagree fromNode eq_refl).
  destruct (resolveLoc resolve (loc fromNode) root projectRoot)
    as [filePath line].
  cbn [fst] in Hagree. unfold readSource. now rewrite Hagree.
Qed.

Lemma verifyEdge_reads_only_source_witness :
  verifyEdge MoreExamples.tree Examples.resolve MoreExamples.calls_edge
             MoreExamples.nds "src/" "/proj"
  = verifyEdge
      (fun p => if String.eqb p "/proj/src/service.ts"
                then Some MoreExamples.service_ts else None)
      Examples.resolve MoreExamples.calls_edge MoreExamples.nds "src/" "/proj".
Proof.
  apply verifyEdge_reads_only_source.
  intros fromNode H. injection H as <-. reflexivity.
Defined.

Lemma eqb_false_neq (a b : string) : String.eqb a b = false -> a <> b.
Proof.
  intros H. now apply String.eqb_neq.
Qed.

Ltac eqb_facts :=
  repeat match goal with
         | H : String.eqb _ _ = true |- _ => apply String.eqb_eq in H
         | H : String.eqb _ _ = false |- _ => apply eqb_false_neq in H
         | H : (_ || _)%bool = true |- _ =>
             apply orb_true_iff in H; destruct H
         | H : (_ || _)%bool = false |- _ =>
             apply orb_false_iff in H; destruct H
         end.

(** X3: the status policy of [verifyEdge].  A [from] id or a [to] id that
    is neither in the node table nor a property name every object inherits,
    or an unreadable source file, each give FAIL before the relation is
    looked at.  Once all three are fine: [writes], [reads] and
    [listens] never give FAIL; [calls] and [emits] never give WARN;
    [validates] gives WARN exactly when the target declares no schema; and a
    relation outside the seven known ones is always accepted with PASS. *)
Theorem edge_status_policy
        (fs : string -> option string)
        (resolve : string -> string -> string -> string)
        (e : Edge) (nds : obj Node) (root projectRoot : string) :
  (obj_get nds (from e) = None ->
   inherited (from e) = false ->
   verifyEdge fs resolve e nds root projectRoot
   = [record FAIL relational (edgeId e) "Source node missing"])
  /\
  (forall fromNode,
      obj_get nds (from e) = Some fromNode ->
      (obj_get nds (to e) = None ->
       inherited (to e) = false ->
       verifyEdge fs resolve e nds root projectRoot
       = [record FAIL relational (edgeId e) "Target node missing"])
      /\
      (forall toNode,
          obj_get nds (to e) = Some toNode ->
          (readable fs resolve fromNode root projectRoot = false ->
           verifyEdge fs resolve e nds root projectRoot
           = [record FAIL relational (edgeId e) "Source file not found"])
          /\
          (readable fs resolve fromNode root projectRoot = true ->
           (In (rel e) ["writes"; "reads"; "listens"] ->
            map status (verifyEdge fs resolve e nds root projectRoot) = [PASS]
            \/ map status (verifyEdge fs resolve e nds root projectRoot)
               = [WARN])
           /\
           (In (rel e) ["calls"; "emits"] ->
            map status (verifyEdge fs resolve e nds root projectRoot) = [PASS]
            \/ map status (verifyEdge fs resolve e nds root projectRoot)
               = [FAIL])
           /\
           (rel e = "validates" ->
            (map status (verifyEdge fs resolve e nds root projectRoot) = [WARN]
             <-> JsString.truthy_opt (schema toNode) = false))
           /\
           (~ In (rel e) known_relations ->
            verifyEdge fs resolve e nds root projectRoot
            = [record PASS relational (edgeId e)
                      ("Relation '" ++ rel e ++ "' accepted")])))).
Proof.
  unfold verifyEdge, readable. split.
  { intros -> _. reflexivity. }
  intros fromNode ->. split.
  { intros -> _. reflexivity. }
  intros toNode ->.
  destruct (resolveLoc resolve (loc fromNode) root projectRoot)
    as [filePath line].
  cbn [fst]. split.
  { intros H. apply negb_false_iff in H. now rewrite H. }
  intros H. apply negb_true_iff in H. rewrite H.
  split; [|split; [|split]].
  - intros Hrel. cbn [In] in Hrel.
    destruct Hrel as [<-|[<-|[<-|[]]]]; cbn [String.eqb Ascii.eqb Bool.eqb orb];
      break_match; cbn; auto.
  - intros Hrel. cbn [In] in Hrel.
    destruct Hrel as [<-|[<-|[]]]; cbn [String.eqb Ascii.eqb Bool.eqb orb];
      break_match; cbn; auto.
  - intros ->. cbn [String.eqb Ascii.eqb Bool.eqb].
    unfold JsString.truthy_opt.
    destruct (schema toNode) as [sch|]; [|now split].
    destruct (JsString.truthy sch); [|now split].
    break_match; cbn; split; discriminate.
  - intros Hno. unfold known_relations in Hno. cbn [In] in Hno.
    repeat break_match; eqb_facts; try reflexivity; exfalso; apply Hno;
      match goal with
      | H : rel e = _ |- _ => rewrite H
      end;
      intuition auto.
Qed.

Lemma edge_status_policy_witness :
  verifyEdge MoreExamples.tree Examples.resolve MoreExamples.dangling_edge
             MoreExamples.nds "src/" "/proj"
  = [record FAIL relational (edgeId MoreExamples.dangling_edge)
            "Source node missing"]
  /\ verifyEdge MoreExamples.tree Examples.resolve MoreExamples.custom_edge
                MoreExamples.nds "src/" "/proj"
     = [record PASS relational (edgeId MoreExamples.custom_edge)
               "Relation 'enqueues' accepted"].
Proof.
  split.
  - apply (proj1 (edge_status_policy MoreExamples.tree Examples.resolve
                    MoreExamples.dangling_edge MoreExamples.nds "src/"
                    "/proj")); reflexivity.
  - destruct (proj2 (edge_status_policy MoreExamples.tree Examples.resolve
                       MoreExamples.custom_edge MoreExamples.nds "src/"
                       "/proj")
                    (Examples.plain "method" "service.ts:2") eq_refl)
      as [_ Hto].
    destruct (Hto (Examples.plain "queue" "events.ts") eq_refl)
      as [_ Hread].
    destruct (Hread eq_refl) as [_ [_ [_ Hcustom]]].
    apply Hcustom. unfold known_relations. cbn [In].
    intros H. repeat destruct H as [H|H]; try discriminate H. exact H.
Defined.

(** ** Call sites, validation calls and quoted names *)

Lemma append_assoc (a b c : string) : (a ++ b) ++ c = a ++ b ++ c.
Proof.
  induction a as [|x a IH]; simpl; [reflexivity | now rewrite IH].
Qed.









Ltac edge_ready Hfrom Hto Hread :=
  unfold verifyEdge, readable, source_of in *;
  rewrite Hfrom, Hto;
  match goal with
  | |- context [resolveLoc ?r ?l ?a ?b] =>
      destruct (resolveLoc r l a b) as [filePath line] eqn:Hloc
  end;
  cbn [fst] in *;
  apply negb_true_iff in Hread; rewrite Hread.



(** X5: an [emits] or [listens] edge whose endpoints exist and whose source
    file is readable gets PASS exactly when the event name (the target id
    without ["event:"]) stands between two quote characters in the source
    file; a bare occurrence is not enough.  Without such an occurrence
    [emits] gets FAIL and [listens] gets WARN. *)
Theorem event_edge_spec
        (fs : string -> option string)
        (resolve : string -> string -> string -> string)
        (e : Edge) (nds : obj Node) (root projectRoot : string)
        (fromNode toNode : Node) :
  In (rel e) ["emits"; "listens"] ->
  obj_get nds (from e) = Some fromNode ->
  obj_get nds (to e) = Some toNode ->
  readable fs resolve fromNode root projectRoot = true ->
  (map status (verifyEdge fs resolve e nds root projectRoot) = [PASS]
   <-> quoted_occurrence (JsString.replace "event:" "" (to e))
                         (source_of fs resolve fromNode root projectRoot))
  /\
  (~ quoted_occurrence (JsString.replace "event:" "" (to e))
                       (source_of fs resolve fromNode root projectRoot) ->
   (rel e = "emits" ->
    map status (verifyEdge fs resolve e nds root projectRoot) = [FAIL])
   /\
   (rel e = "listens" ->
    map status (verifyEdge fs resolve e nds root projectRoot) = [WARN])).
Proof.
  intros Hrel Hfrom Hto Hread. edge_ready Hfrom Hto Hread.
  rewrite <- quotedPattern_spec. cbn [In] in Hrel.
  destruct Hrel as [Hrel|[Hrel|[]]]; rewrite <- Hrel;
    cbn [String.eqb Ascii.eqb Bool.eqb orb];
    destruct (has _ (Patterns.quotedPattern _)); cbn [map status record].
  - split; [now split | intros H; now contradiction H].
  - split; [split; discriminate|]. intros _. split; [reflexivity|discriminate].
  - split; [now split | intros H; now contradiction H].
  - split; [split; discriminate|]. intros _. split; [discriminate|reflexivity].
Qed.

Lemma event_edge_spec_witness :
  (map status
       (verifyEdge MoreExamples.tree Examples.resolve MoreExamples.emits_edge
                   MoreExamples.nds "src/" "/proj")
   = [PASS]
   <-> quoted_occurrence "task.created" MoreExamples.service_ts)
  /\ map status
         (verifyEdge MoreExamples.tree Examples.resolve
                     MoreExamples.listens_edge MoreExamples.nds "src/" "/proj")
     = [WARN].
Proof.
  split.
  - exact (proj1 (event_edge_spec
                    MoreExamples.tree Examples.resolve MoreExamples.emits_edge
                    MoreExamples.nds "src/" "/proj"
                    (Examples.plain "method" "service.ts:2")
                    (Examples.plain "event" "service.ts")
                    (or_introl eq_refl) eq_refl eq_refl eq_refl)).
  - destruct (event_edge_spec
                MoreExamples.tree Examples.resolve MoreExamples.listens_edge
                MoreExamples.nds "src/" "/proj"
                (Examples.plain "method" "repository.ts:2")
                (Examples.plain "event" "service.ts")
                (or_intror (or_introl eq_refl)) eq_refl eq_refl eq_refl)
      as [_ Hno].
    apply Hno; [|reflexivity].
    intros Hq. apply quotedPattern_spec in Hq. vm_compute in Hq.
    discriminate Hq.
Defined.



(** X7: if an [emits] edge passes and its target is an event node located
    in the same resolved file as the edge's source node, then that event
    node passes its own existence check. *)
Theorem emits_pass_implies_event_node_pass
        (fs : string -> option string)
        (resolve : string -> string -> string -> string)
        (e : Edge) (nds : obj Node) (root projectRoot : string)
        (fromNode toNode : Node) :
  rel e = "emits" ->
  obj_get nds (from e) = Some fromNode ->
  obj_get nds (to e) = Some toNode ->
  kind toNode = "event" ->
  fst (resolveLoc resolve (loc toNode) root projectRoot)
  = fst (resolveLoc resolve (loc fromNode) root projectRoot) ->
  map status (verifyEdge fs resolve e nds root projectRoot) = [PASS] ->
  map status (verifyNode fs resolve (to e) toNode root projectRoot) = [PASS].
Proof.
  intros Hrel Hfrom Hto Hkind Hsame.
  unfold verifyNode, verifyEventNode, verifyEdge.
  rewrite Hfrom, Hto, Hkind, Hrel. cbn [String.eqb Ascii.eqb Bool.eqb orb].
  destruct (resolveLoc resolve (loc toNode) root projectRoot) as [p1 l1].
  destruct (resolveLoc resolve (loc fromNode) root projectRoot) as [p2 l2].
  cbn [fst] in Hsame. subst p2.
  destruct (falsy (readSource fs p1)); [discriminate|].
  destruct (has _ (Patterns.quotedPattern _)); [|discriminate].
  reflexivity.
Qed.

Lemma emits_pass_implies_event_node_pass_witness :
  map status
      (verifyNode MoreExamples.tree Examples.resolve "event:task.created"
                  (Examples.plain "event" "service.ts") "src/" "/proj")
  = [PASS].
Proof.
  apply (emits_pass_implies_event_node_pass
           MoreExamples.tree Examples.resolve MoreExamples.emits_edge
           MoreExamples.nds "src/" "/proj"
           (Examples.plain "method" "service.ts:2")
           (Examples.plain "event" "service.ts")
           eq_refl eq_refl eq_refl eq_refl eq_refl).
  vm_compute. reflexivity.
Defined.

(** ** Invariants *)

Lemma scope_nodes_forallb (nds : obj Node) (P : Node -> bool)
      (sc : list string) :
  forallb P (flat_map (fun s => match obj_get nds s with
                                | Some n => [n]
                                | None => []
                                end) sc) = true
  <-> forall s n, In s sc -> obj_get nds s = Some n -> P n = true.
Proof.
  induction sc as [|s sc IH]; cbn [flat_map].
  - split; [intros _ s n [] | reflexivity].
  - rewrite forallb_app, andb_true_iff, IH. split.
    + intros [Hs Hsc] s' n [<-|Hin] Hget.
      * rewrite Hget in Hs. cbn in Hs. now rewrite andb_true_r in Hs.
      * now apply (Hsc s').
    + intros H. split.
      * destruct (obj_get nds s) as [n|] eqn:E; [|reflexivity].
        cbn. rewrite andb_true_r. apply (H s); [now left | exact E].
      * intros s' n Hin. apply H. now right.
Qed.

Lemma filter_nil_forall {A : Type} (f : A -> bool) (l : list A) :
  filter f l = [] <-> forall x, In x l -> f x = false.
Proof.
  induction l as [|a l IH]; cbn [filter].
  - split; [intros _ x [] | reflexivity].
  - destruct (f a) eqn:E.
    + split; [discriminate|]. intros H. rewrite (H a) in E; [discriminate|].
      now left.
    + rewrite IH. split.
      * intros H x [<-|Hin]; [exact E | now apply H].
      * intros H x Hin. apply H. now right.
Qed.

(** X8: every invariant whose scope holds no property name that every
    object inherits gets exactly one record, in the invariant category and
    under its own id, and that record is never a PASS.  It is a WARN
    exactly when every id in the scope is in the node table and every
    scoped node's file is readable; in particular an invariant with an
    empty scope gets WARN.  In every other case it is a FAIL. *)
Theorem verifyInvariant_spec
        (fs : string -> option string)
        (resolve : string -> string -> string -> string)
        (inv : Invariant) (nds : obj Node) (root projectRoot : string) :
  plain_names (scope inv) = true ->
  (exists st msg,
      verifyInvariant fs resolve inv nds root projectRoot
      = [record st invariant (inv_id inv) msg]
      /\ (st = WARN \/ st = FAIL))
  /\
  (map status (verifyInvariant fs resolve inv nds root projectRoot) = [WARN]
   <-> forall s,
      In s (scope inv) ->
      exists n,
        obj_get nds s = Some n
        /\ readable fs resolve n root projectRoot = true)
  /\
  (scope inv = [] ->
   map status (verifyInvariant fs resolve inv nds root projectRoot) = [WARN]).
Proof.
  intros _.
  assert (Hmain :
            map status (verifyInvariant fs resolve inv nds root projectRoot)
            = [WARN]
            <-> forall s,
              In s (scope inv) ->
              exists n,
                obj_get nds s = Some n
                /\ readable fs resolve n root projectRoot = true).
  { unfold verifyInvariant, readable.
    destruct (filter (fun s => negb (has_key nds s)) (scope inv))
      as [|m ms] eqn:Hmiss; cbn [List.length Nat.ltb Nat.leb].
    - pose proof (proj1 (filter_nil_forall _ _) Hmiss) as Hall.
      destruct (forallb _ _) eqn:Hfiles; cbn [negb map status record].
      + split; [intros _ | reflexivity]. intros s Hin.
        specialize (Hall s Hin). apply negb_false_iff in Hall.
        unfold has_key in Hall.
        destruct (obj_get nds s) as [n|] eqn:E; [|discriminate].
        exists n. split; [reflexivity|].
        exact (proj1 (scope_nodes_forallb nds _ (scope inv)) Hfiles s n Hin E).
      + split; [discriminate|]. intros H.
        assert (Htrue : forallb
                          (fun n =>
                             negb (falsy (readSource fs
                                            (fst (resolveLoc resolve (loc n)
                                                    root projectRoot)))))
                          (flat_map (fun s => match obj_get nds s with
                                              | Some n => [n]
                                              | None => []
                                              end) (scope inv)) = true).
        { apply scope_nodes_forallb. intros s n Hin Hget.
          destruct (H s Hin) as [n' [Hget' Hr]]. congruence. }
        congruence.
    - cbn [map status record]. split; [discriminate|]. intros H.
      assert (Hin : In m (filter (fun s => negb (has_key nds s)) (scope inv)))
        by (rewrite Hmiss; now left).
      apply filter_In in Hin as [Hin Habs].
      destruct (H m Hin) as [n [Hget _]].
      unfold has_key in Habs. rewrite Hget in Habs. discriminate. }
  split; [|split; [exact Hmain|]].
  - unfold verifyInvariant. repeat break_match;
      eexists; eexists; (split; [reflexivity | auto]).
  - intros Hempty. apply Hmain. rewrite Hempty. intros s [].
Qed.

Lemma verifyInvariant_spec_witness :
  map status
      (verifyInvariant MoreExamples.tree Examples.resolve
                       MoreExamples.empty_scope_invariant MoreExamples.nds
                       "src/" "/proj")
  = [WARN]
  /\ map status
         (verifyInvariant MoreExamples.tree Examples.resolve
                          Examples.audit_invariant MoreExamples.nds
                          "src/" "/proj")
     = [WARN]
  /\ map status
         (verifyInvariant MoreExamples.tree Examples.resolve
                          MoreExamples.ghost_invariant MoreExamples.nds
                          "src/" "/proj")
     <> [WARN].
Proof.
  split; [|split].
  - apply (proj2 (proj2 (verifyInvariant_spec
                           MoreExamples.tree Examples.resolve
                           MoreExamples.empty_scope_invariant MoreExamples.nds
                           "src/" "/proj" eq_refl))).
    reflexivity.
  - apply (proj1 (proj2 (verifyInvariant_spec
                           MoreExamples.tree Examples.resolve
                           Examples.audit_invariant MoreExamples.nds
                           "src/" "/proj" eq_refl))).
    intros s [<-|[]]. exists (Examples.plain "table" "schema.sql:1").
    split; reflexivity.
  - intros Hwarn.
    pose proof (proj1 (proj1 (proj2 (verifyInvariant_spec
                                       MoreExamples.tree Examples.resolve
                                       MoreExamples.ghost_invariant
                                       MoreExamples.nds
                                       "src/" "/proj" eq_refl))) Hwarn)
      as Hall.
    destruct (Hall "method:Ghost" (or_introl eq_refl)) as [n [Hget _]].
    discriminate Hget.
Defined.

(** ** Unreadable files and custom kinds *)

(** X9: whatever the kind of a node, built-in or custom (and not a
    property name every object inherits), when its resolved file is
    unreadable (missing, or read as empty text) the structural check pushes
    the single record FAIL "File not found: <loc>". *)
Theorem unreadable_node_fails
        (fs : string -> option string)
        (resolve : string -> string -> string -> string)
        (i : string) (n : Node) (root projectRoot : string) :
  inherited (kind n) = false ->
  readable fs resolve n root projectRoot = false ->
  verifyNode fs resolve i n root projectRoot
  = [record FAIL structural i ("File not found: " ++ loc n)].
Proof.
  unfold readable. intros _ H. apply negb_false_iff in H.
  unfold verifyNode, verifyTypeNode, verifyMethodNode, verifyTableNode,
    verifyEndpointNode, verifyEventNode.
  destruct (resolveLoc resolve (loc n) root projectRoot) as [filePath line].
  cbn [fst] in H. rewrite H.
  destruct (String.eqb (kind n) "type"); [reflexivity|].
  destruct (String.eqb (kind n) "method"); [reflexivity|].
  destruct (String.eqb (kind n) "table"); [reflexivity|].
  destruct (String.eqb (kind n) "endpoint"); [reflexivity|].
  destruct (String.eqb (kind n) "event"); reflexivity.
Qed.

Lemma unreadable_node_fails_witness :
  verifyNode Examples.empty_tree Examples.resolve "table:tasks"
             (Examples.plain "table" "schema.sql:1") "src/" "/proj"
  = [record FAIL structural "table:tasks" "File not found: schema.sql:1"].
Proof.
  apply (unreadable_node_fails Examples.empty_tree Examples.resolve
           "table:tasks" (Examples.plain "table" "schema.sql:1") "src/"
           "/proj"); reflexivity.
Defined.

(** X10: a node whose kind is none of the five built-in ones, and not a
    property name every object inherits, is checked for file readability
    only: it gets the single record PASS "File exists at
    <loc>" whenever its resolved file is readable, whatever the file
    contains and whatever the node id is. *)
Theorem custom_kind_file_only
        (fs : string -> option string)
        (resolve : string -> string -> string -> string)
        (i : string) (n : Node) (root projectRoot : string) :
  ~ In (kind n) builtin_kinds ->
  inherited (kind n) = false ->
  readable fs resolve n root projectRoot = true ->
  verifyNode fs resolve i n root projectRoot
  = [record PASS structural i ("File exists at " ++ loc n)].
Proof.
  unfold readable, builtin_kinds. intros Hkind _ H. cbn [In] in Hkind.
  unfold verifyNode.
  destruct (resolveLoc resolve (loc n) root projectRoot) as [filePath line].
  cbn [fst] in H. rewrite H.
  repeat break_match; eqb_facts; try reflexivity; exfalso; apply Hkind;
    match goal with
    | H : kind n = _ |- _ => rewrite H
    end;
    intuition auto.
Qed.

Lemma custom_kind_file_only_witness :
  verifyNode MoreExamples.tree Examples.resolve "queue:jobs"
             (Examples.plain "queue" "events.ts") "src/" "/proj"
  = [record PASS structural "queue:jobs" "File exists at events.ts"].
Proof.
  apply (custom_kind_file_only MoreExamples.tree Examples.resolve
           "queue:jobs" (Examples.plain "queue" "events.ts") "src/" "/proj").
  - unfold builtin_kinds. cbn [In kind Examples.plain].
    intros H. repeat destruct H as [H|H]; try discriminate H. exact H.
  - reflexivity.
  - reflexivity.
Defined.

(** ** Phases and categories *)

Ltac in_single :=
  repeat match goal with
         | H : In _ [] |- _ => destruct H
         | H : In _ (_ :: _) |- _ => destruct H as [<-|H]
         | H : In _ (_ ++ _) |- _ => apply in_app_or in H; destruct H as [H|H]
         | H : In _ (flat_map _ _) |- _ =>
             apply in_flat_map in H; destruct H as [? [_ H]]
         | H : In _ (match ?x with _ => _ end) |- _ => destruct x
         end.

(** Every record a node check pushes is structural and carries the node
    id. *)
Lemma verifyNode_records
      (fs : string -> option string)
      (resolve : string -> string -> string -> string)
      (i : string) (n : Node) (root projectRoot : string) (r : Result) :
  In r (verifyNode fs resolve i n root projectRoot) ->
  category r = structural /\ id r = i.
Proof.
  unfold verifyNode, verifyTypeNode, verifyMethodNode, verifyTableNode,
    verifyEndpointNode, verifyEventNode.
  destruct (resolveLoc resolve (loc n) root projectRoot) as [filePath line].
  intros H. in_single; split; reflexivity.
Qed.

Lemma verifyNodes_structural
      (fs : string -> option string)
      (resolve : string -> string -> string -> string)
      (nds : obj Node) (root projectRoot : string) (r : Result) :
  In r (verifyNodes fs resolve nds root projectRoot) ->
  category r = structural.
Proof.
  unfold verifyNodes. intros H.
  apply in_flat_map in H as [[i n] [_ H]].
  now apply verifyNode_records in H.
Qed.

Lemma verifyEdges_relational
      (fs : string -> option string)
      (resolve : string -> string -> string -> string)
      (es : list Edge) (nds : obj Node) (root projectRoot : string)
      (r : Result) :
  In r (verifyEdges fs resolve es nds root projectRoot) ->
  category r = relational.
Proof.
  unfold verifyEdges. intros H. apply in_flat_map in H as [e [_ H]].
  destruct (JsString.truthy_opt (_comment e)); [destruct H|].
  destruct (verifyEdge_single_record fs resolve e nds root projectRoot)
    as [st [msg He]].
  rewrite He in H. destruct H as [<-|[]]. reflexivity.
Qed.

Lemma flow_reachability_records (name : string) (fl : Flow) (r : Result) :
  In r (flow_reachability name fl) -> category r = flow /\ id r = name.
Proof.
  unfold flow_reachability. rewrite reach_step_fold. cbn [app andb].
  intros H.
  assert (Hw : In r (map (unreachable_warning name)
                         (violations_in fl (steps fl)))
               \/ r = record PASS flow name "All branch targets reachable").
  { destruct (is_nil (violations_in fl (steps fl))).
    - apply in_app_or in H as [H|[<-|[]]]; auto.
    - now left. }
  destruct Hw as [Hw| ->]; [|now split].
  apply in_map_iff in Hw as [entry [<- _]]. now split.
Qed.

Lemma verifyFlows_flow (fls : obj Flow) (nds : obj Node) (r : Result) :
  In r (verifyFlows fls nds) -> category r = flow.
Proof.
  unfold verifyFlows. intros H. apply in_flat_map in H as [[name fl] [_ H]].
  apply in_app_or in H as [H|H].
  - unfold flow_existence in H.
    destruct (existence_scan nds fl) as [[|] missing];
      destruct H as [<-|[]]; reflexivity.
  - now apply flow_reachability_records in H.
Qed.

Lemma verifyInvariants_invariant
      (fs : string -> option string)
      (resolve : string -> string -> string -> string)
      (invs : list Invariant) (nds : obj Node) (root projectRoot : string)
      (r : Result) :
  In r (verifyInvariants fs resolve invs nds root projectRoot) ->
  category r = invariant.
Proof.
  unfold verifyInvariants, verifyInvariant. intros H.
  apply in_flat_map in H as [inv [_ H]].
  in_single; reflexivity.
Qed.

Lemma filter_category_all (c : Category) (l : list Result) :
  (forall r, In r l -> category r = c) -> filter (has_category c) l = l.
Proof.
  induction l as [|r l IH]; intros H; cbn [filter]; [reflexivity|].
  unfold has_category at 1. rewrite (H r (or_introl eq_refl)).
  replace (Category_eqb c c) with true by (now destruct c).
  f_equal. apply IH. intros r' Hin. apply H. now right.
Qed.

Lemma filter_category_none (c c' : Category) (l : list Result) :
  (forall r, In r l -> category r = c') ->
  c <> c' ->
  filter (has_category c) l = [].
Proof.
  intros H Hne. induction l as [|r l IH]; cbn [filter]; [reflexivity|].
  unfold has_category at 1. rewrite (H r (or_introl eq_refl)).
  replace (Category_eqb c' c) with false
    by (destruct c, c'; try reflexivity; congruence).
  apply IH. intros r' Hin. apply H. now right.
Qed.

(** X11: the records of a run come in four blocks, in push order: those of
    the node checks are exactly the structural ones, those of the edge
    checks the relational ones, those of the flow checks the flow ones and
    those of the invariant checks the invariant ones.  Selecting a category
    from the results therefore gives back one phase's output unchanged. *)
Theorem results_grouped_by_phase
        (fs : string -> option string)
        (resolve : string -> string -> string -> string)
        (fg : Flowgraph) (projectRoot : string) :
  filter (has_category structural)
         (fst (runVerification fs resolve fg projectRoot))
  = verifyNodes fs resolve (nodes fg) (meta_root fg) projectRoot
  /\ filter (has_category relational)
            (fst (runVerification fs resolve fg projectRoot))
     = verifyEdges fs resolve (edges fg) (nodes fg) (meta_root fg) projectRoot
  /\ filter (has_category flow)
            (fst (runVerification fs resolve fg projectRoot))
     = verifyFlows (flows fg) (nodes fg)
  /\ filter (has_category invariant)
            (fst (runVerification fs resolve fg projectRoot))
     = verifyInvariants fs resolve (invariants fg) (nodes fg) (meta_root fg)
                        projectRoot.
Proof.
  unfold runVerification, verificationResults. cbn [fst].
  pose proof (verifyNodes_structural fs resolve (nodes fg) (meta_root fg)
                                     projectRoot) as Hn.
  pose proof (verifyEdges_relational fs resolve (edges fg) (nodes fg)
                                     (meta_root fg) projectRoot) as He.
  pose proof (verifyFlows_flow (flows fg) (nodes fg)) as Hf.
  pose proof (verifyInvariants_invariant fs resolve (invariants fg) (nodes fg)
                                         (meta_root fg) projectRoot) as Hi.
  rewrite !filter_app.
  repeat split.
  - rewrite (filter_category_all _ _ Hn).
    rewrite (filter_category_none structural _ _ He) by discriminate.
    rewrite (filter_category_none structural _ _ Hf) by discriminate.
    rewrite (filter_category_none structural _ _ Hi) by discriminate.
    now rewrite app_nil_r.
  - rewrite (filter_category_all _ _ He).
    rewrite (filter_category_none relational _ _ Hn) by discriminate.
    rewrite (filter_category_none relational _ _ Hf) by discriminate.
    rewrite (filter_category_none relational _ _ Hi) by discriminate.
    now rewrite app_nil_r.
  - rewrite (filter_category_all _ _ Hf).
    rewrite (filter_category_none flow _ _ Hn) by discriminate.
    rewrite (filter_category_none flow _ _ He) by discriminate.
    rewrite (filter_category_none flow _ _ Hi) by discriminate.
    now rewrite app_nil_r.
  - rewrite (filter_category_all _ _ Hi).
    rewrite (filter_category_none invariant _ _ Hn) by discriminate.
    rewrite (filter_category_none invariant _ _ He) by discriminate.
    now rewrite (filter_category_none invariant _ _ Hf) by discriminate.
Qed.

(** X12: the three counts of the summary add up to the total: every record
    of a run is a PASS, a FAIL or a WARN, counted once. *)
Theorem summary_counts_total
        (fs : string -> option string)
        (resolve : string -> string -> string -> string)
        (fg : Flowgraph) (projectRoot : string) :
  count_status PASS (fst (runVerification fs resolve fg projectRoot))
  + count_status FAIL (fst (runVerification fs resolve fg projectRoot))
  + count_status WARN (fst (runVerification fs resolve fg projectRoot))
  = List.length (fst (runVerification fs resolve fg projectRoot)).
Proof.
  generalize (fst (runVerification fs resolve fg projectRoot)) as rs.
  unfold count_status. induction rs as [|r rs IH]; [reflexivity|].
  cbn [filter List.length]. destruct (status r); cbn [Status_eqb List.length];
    lia.
Qed.

(** ** Regions *)

(** X13: bounds of [getRegion].  When the window reaches from the first
    line to the last (the declared line is at most [radius + 1] and the text
    has at most [lineNum - 1 + radius] lines) the region is the whole text;
    when the window starts at or after the end of the text the region is
    empty. *)
Theorem getRegion_bounds (source : string) (lineNum radius : nat) :
  (lineNum - 1 <= radius ->
   List.length (JsString.split_on "010" source) <= lineNum - 1 + radius ->
   getRegion source lineNum radius = source)
  /\
  (List.length (JsString.split_on "010" source) <= lineNum - 1 - radius ->
   getRegion source lineNum radius = "").
Proof.
  unfold getRegion, lines_slice. split.
  - intros Hstart Hstop.
    replace (lineNum - 1 - radius) with 0 by lia.
    rewrite Nat.min_l by exact Hstop.
    rewrite firstn_all. cbn [skipn].
    apply (join_split_on "010" source).
  - intros Hpast.
    rewrite skipn_all2; [reflexivity|].
    rewrite length_firstn. lia.
Qed.

Lemma getRegion_bounds_witness :
  getRegion Examples.schema_sql 1 15 = Examples.schema_sql
  /\ getRegion Examples.schema_sql 40 15 = "".
Proof.
  split.
  - apply (proj1 (getRegion_bounds Examples.schema_sql 1 15));
      vm_compute; repeat constructor.
  - apply (proj2 (getRegion_bounds Examples.schema_sql 40 15)).
    vm_compute. repeat constructor.
Defined.

Lemma typePatterns_empty_text (typeName : string) :
  existsb (has "") (Patterns.typePatterns typeName) = false.
Proof.
  reflexivity.
Qed.

Lemma methodPatterns_empty_text (methodName : string) :
  existsb (has "") (Patterns.methodPatterns methodName) = false.
Proof.
  destruct methodName; reflexivity.
Qed.

(** X14: a stale line number.  For a type or method node with a readable
    file whose declaration is found in the file, if the declared line lies
    more than five lines past the end of the file, the existence record is
    WARN; and if the file is so short that the five-line window around the
    declared line covers all of it, the existence record is PASS. *)
Theorem declared_line_against_file_length
        (fs : string -> option string)
        (resolve : string -> string -> string -> string)
        (i : string) (n : Node) (root projectRoot : string) (ln : nat) :
  readable fs resolve n root projectRoot = true ->
  snd (resolveLoc resolve (loc n) root projectRoot) = Some ln ->
  ln <> 0 ->
  (existsb (has (source_of fs resolve n root projectRoot))
           (Patterns.typePatterns (JsString.replace "type:" "" i)) = true ->
   (List.length (JsString.split_on
                   "010" (source_of fs resolve n root projectRoot))
    <= ln - 1 - 5 ->
    map status (firstn 1 (verifyTypeNode fs resolve i n root projectRoot))
    = [WARN])
   /\
   (ln - 1 <= 5 ->
    List.length (JsString.split_on
                   "010" (source_of fs resolve n root projectRoot))
    <= ln - 1 + 5 ->
    map status (firstn 1 (verifyTypeNode fs resolve i n root projectRoot))
    = [PASS]))
  /\
  (existsb (has (source_of fs resolve n root projectRoot))
           (Patterns.methodPatterns
              (last (JsString.split_on "." (JsString.replace "method:" "" i))
                    "")) = true ->
   (List.length (JsString.split_on
                   "010" (source_of fs resolve n root projectRoot))
    <= ln - 1 - 5 ->
    map status (verifyMethodNode fs resolve i n root projectRoot) = [WARN])
   /\
   (ln - 1 <= 5 ->
    List.length (JsString.split_on
                   "010" (source_of fs resolve n root projectRoot))
    <= ln - 1 + 5 ->
    map status (verifyMethodNode fs resolve i n root projectRoot) = [PASS])).
Proof.
  unfold readable, source_of, verifyTypeNode, verifyMethodNode.
  intros Hread Hline Hln. apply negb_true_iff in Hread.
  destruct (resolveLoc resolve (loc n) root projectRoot) as [filePath line].
  cbn [fst snd] in *. subst line. rewrite Hread.
  assert (Htruthy : truthy_line (Some ln) = Some ln)
    by (destruct ln; [congruence | reflexivity]).
  rewrite Htruthy.
  set (src := text (readSource fs filePath)).
  destruct (getRegion_bounds src ln 5) as [Hwhole Hpast].
  split; intros Hfound; rewrite Hfound; cbn [negb]; split.
  - intros Hlen. rewrite (Hpast Hlen), typePatterns_empty_text. reflexivity.
  - intros H1 H2. rewrite (Hwhole H1 H2), Hfound. reflexivity.
  - intros Hlen. rewrite (Hpast Hlen), methodPatterns_empty_text. reflexivity.
  - intros H1 H2. rewrite (Hwhole H1 H2), Hfound. reflexivity.
Qed.

Lemma declared_line_against_file_length_witness :
  map status
      (verifyMethodNode Examples.tree Examples.resolve
                        "method:TaskRepository.create"
                        (Examples.plain "method" "repository.ts:90")
                        "src/" "/proj")
  = [WARN]
  /\ map status
         (verifyMethodNode Examples.tree Examples.resolve
                           "method:TaskRepository.create"
                           (Examples.plain "method" "repository.ts:2")
                           "src/" "/proj")
     = [PASS].
Proof.
  split.
  - destruct (declared_line_against_file_length
                Examples.tree Examples.resolve "method:TaskRepository.create"
                (Examples.plain "method" "repository.ts:90") "src/" "/proj"
                90 eq_refl eq_refl (Nat.neq_succ_0 89)) as [_ Hm].
    apply Hm; [reflexivity|]. vm_compute. repeat constructor.
  - destruct (declared_line_against_file_length
                Examples.tree Examples.resolve "method:TaskRepository.create"
                (Examples.plain "method" "repository.ts:2") "src/" "/proj"
                2 eq_refl eq_refl (Nat.neq_succ_0 1)) as [_ Hm].
    apply Hm; [reflexivity | |]; vm_compute; repeat constructor.
Defined.

(** ** Locations *)

Lemma concat_removelast_last (sep : string) (parts : list string) :
  2 <= List.length parts ->
  String.concat sep parts
  = String.concat sep (removelast parts) ++ sep ++ last parts "".
Proof.
  induction parts as [|x parts IH]; [simpl; lia|].
  destruct parts as [|y parts]; [simpl; lia|]. intros _.
  destruct parts as [|z parts].
  - reflexivity.
  - change (last (x :: y :: z :: parts) "") with (last (y :: z :: parts) "").
    change (removelast (x :: y :: z :: parts))
      with (x :: removelast (y :: z :: parts)).
    rewrite concat_cons_nonempty by discriminate.
    rewrite IH by (simpl; lia).
    rewrite concat_cons_nonempty.
    + now rewrite !append_assoc.
    + destruct parts; discriminate.
Qed.

(** X15: splitting a location is the inverse of writing it.  The resolver
    yields path [p] and line digits [d] exactly for the strings [p:d] with
    [d] a non-empty run of decimal digits, whatever colons [p] itself
    contains; and when it yields no line, the path is the whole string. *)
Theorem locParts_roundtrip (l : string) :
  (forall p d,
      locParts l = (p, Some d)
      <-> l = p ++ ":" ++ d /\ JsString.is_numeric d = true)
  /\
  (forall p, locParts l = (p, None) -> p = l).
Proof.
  split.
  - intros p d. split.
    + unfold locParts.
      destruct ((1 <? List.length (JsString.split_on ":" l))%nat
                && JsString.is_numeric (last (JsString.split_on ":" l) ""))
        eqn:E; [|discriminate].
      apply andb_true_iff in E as [Hlen Hnum]. apply Nat.ltb_lt in Hlen.
      intros H. injection H as <- <-. split; [|exact Hnum].
      rewrite <- (join_split_on ":" l) at 1. unfold JsString.join.
      now apply concat_removelast_last.
    + intros [-> Hnum]. now apply locParts_line.
  - intros p. unfold locParts.
    destruct ((1 <? List.length (JsString.split_on ":" l))%nat
              && JsString.is_numeric (last (JsString.split_on ":" l) ""));
      [discriminate|].
    intros H. injection H as <-. apply (join_split_on ":" l).
Qed.

Lemma locParts_roundtrip_witness :
  locParts ("C:\src\b.ts" ++ ":" ++ "12") = ("C:\src\b.ts", Some "12").
Proof.
  apply (proj1 (locParts_roundtrip ("C:\src\b.ts" ++ ":" ++ "12"))
               "C:\src\b.ts" "12").
  split; reflexivity.
Defined.

(** ** Impact query, continued *)

(** X16: every edge without a truthy [_comment] whose two endpoints are in
    the node table is reported from both ends: it is an outgoing edge of the
    impact report of its [from] node and an incoming edge of the report of
    its [to] node, and when its relation is [co_change] it is also in the
    two required co-change lists. *)
Theorem edge_reported_at_both_ends
        (fg : Flowgraph) (e : Edge) (fromNode toNode : Node) :
  In e (edges fg) ->
  no_comment e = true ->
  obj_get (nodes fg) (from e) = Some fromNode ->
  obj_get (nodes fg) (to e) = Some toNode ->
  exists out_report in_report,
    runImpactAnalysis (from e) fg = Found fromNode out_report
    /\ runImpactAnalysis (to e) fg = Found toNode in_report
    /\ In e (outgoing out_report)
    /\ In e (incoming in_report)
    /\ (rel e = "co_change" ->
        In e (cochangeOut out_report) /\ In e (cochangeIn in_report)).
Proof.
  intros Hin Hc Hfrom Hto. unfold runImpactAnalysis, no_comment in *.
  rewrite Hfrom, Hto. eexists. eexists.
  split; [reflexivity|]. split; [reflexivity|].
  cbn [outgoing incoming cochangeOut cochangeIn].
  assert (Hout : In e (filter (fun e0 => String.eqb (from e0) (from e))
                              (filter (fun e0 =>
                                         negb (JsString.truthy_opt
                                                 (_comment e0)))
                                      (edges fg)))).
  { apply filter_In. split; [|apply String.eqb_refl].
    apply filter_In. now split. }
  assert (Hinc : In e (filter (fun e0 => String.eqb (to e0) (to e))
                              (filter (fun e0 =>
                                         negb (JsString.truthy_opt
                                                 (_comment e0)))
                                      (edges fg)))).
  { apply filter_In. split; [|apply String.eqb_refl].
    apply filter_In. now split. }
  split; [exact Hout|]. split; [exact Hinc|].
  intros Hrel. split; apply filter_In; split; auto;
    rewrite Hrel; reflexivity.
Qed.

Lemma edge_reported_at_both_ends_witness :
  exists out_report in_report,
    runImpactAnalysis "table:tasks"
      (Examples.doc Examples.two_nodes [Examples.co_change_edge] [] [])
    = Found (Examples.plain "table" "schema.sql:1") out_report
    /\ runImpactAnalysis "method:TaskRepository.create"
         (Examples.doc Examples.two_nodes [Examples.co_change_edge] [] [])
       = Found (Examples.plain "method" "repository.ts:2") in_report
    /\ In Examples.co_change_edge (outgoing out_report)
    /\ In Examples.co_change_edge (incoming in_report)
    /\ (rel Examples.co_change_edge = "co_change" ->
        In Examples.co_change_edge (cochangeOut out_report)
        /\ In Examples.co_change_edge (cochangeIn in_report)).
Proof.
  apply (edge_reported_at_both_ends
           (Examples.doc Examples.two_nodes [Examples.co_change_edge] [] [])
           Examples.co_change_edge
           (Examples.plain "table" "schema.sql:1")
           (Examples.plain "method" "repository.ts:2")).
  - now left.
  - reflexivity.
  - reflexivity.
  - reflexivity.
Defined.

Lemma insert_sorted_sorted (x : string) (l : list string) :
  Sorted (fun a b => String.leb a b = true) l ->
  Sorted (fun a b => String.leb a b = true) (JsString.insert_sorted x l).
Proof.
  induction l as [|y l IH]; intros Hs; cbn [JsString.insert_sorted].
  - repeat constructor.
  - destruct (String.leb x y) eqn:E.
    + constructor; [exact Hs | now constructor].
    + apply Sorted_inv in Hs as [Hs Hhd].
      constructor; [now apply IH|].
      assert (Hyx : String.leb y x = true)
        by (destruct (String.leb_total x y); congruence).
      destruct l as [|z l]; cbn [JsString.insert_sorted].
      * now constructor.
      * apply HdRel_inv in Hhd.
        destruct (String.leb x z); now constructor.
Qed.

Lemma sort_sorted (l : list string) :
  Sorted (fun a b => String.leb a b = true) (JsString.sort l).
Proof.
  unfold JsString.sort. induction l as [|x l IH]; cbn [fold_right].
  - constructor.
  - now apply insert_sorted_sorted.
Qed.

(** X17: the listing printed for a node id that is neither in the node
    table nor a property name every object inherits is the node table's ids
    in ascending order of their character codes, each id exactly as often
    as it is a key of the table. *)
Theorem not_found_listing_sorted (nodeId : string) (fg : Flowgraph) :
  obj_get (nodes fg) nodeId = None ->
  inherited nodeId = false ->
  exists ids,
    runImpactAnalysis nodeId fg = NotFound ids
    /\ Sorted (fun a b => String.leb a b = true) ids
    /\ Permutation ids (keys (nodes fg)).
Proof.
  intros Hnone _. unfold runImpactAnalysis. rewrite Hnone.
  eexists. split; [reflexivity|]. split; [apply sort_sorted | apply sort_perm].
Qed.

Lemma not_found_listing_sorted_witness :
  exists ids,
    runImpactAnalysis "method:Ghost"
      (Examples.doc Examples.two_nodes [] [] [])
    = NotFound ids
    /\ Sorted (fun a b => String.leb a b = true) ids
    /\ Permutation ids (keys Examples.two_nodes).
Proof.
  apply (not_found_listing_sorted "method:Ghost"
           (Examples.doc Examples.two_nodes [] [] [])); reflexivity.
Defined.

(** ** Names taken from ids *)

Lemma prefix_self_app (p x : string) : prefix p (p ++ x) = true.
Proof.
  apply prefix_app. now exists x.
Qed.

Lemma drop_length_app (p x : string) :
  JsString.drop (String.length p) (p ++ x) = x.
Proof.
  induction p as [|a p IH]; [now destruct x | exact IH].
Qed.

(** Removing a prefix that is there. *)
Lemma replace_prefix (p x : string) : JsString.replace p "" (p ++ x) = x.
Proof.
  assert (Hunfold : forall s,
             JsString.replace p "" s
             = if prefix p s then "" ++ JsString.drop (String.length p) s
               else match s with
                    | EmptyString => EmptyString
                    | String a s' => String a (JsString.replace p "" s')
                    end)
    by (intros s; destruct s; reflexivity).
  rewrite Hunfold, prefix_self_app, drop_length_app. reflexivity.
Qed.

Lemma last_split_on_app (c : ascii) (q m : string) :
  JsString.all_chars (fun a => negb (Ascii.eqb a c)) m = true ->
  last (JsString.split_on c (q ++ String c m)) "" = m.
Proof.
  intros Hm. rewrite split_on_app, (split_on_no_sep c m Hm).
  apply last_last.
Qed.

Lemma last_split_on_plain (c : ascii) (m : string) :
  JsString.all_chars (fun a => negb (Ascii.eqb a c)) m = true ->
  last (JsString.split_on c m) "" = m.
Proof.
  intros Hm. now rewrite (split_on_no_sep c m Hm).
Qed.

(** X18: a method node is looked for by the final dot-segment of its id
    alone.  For a method name without a dot, the ids [method:Q.name] for any
    qualifier [Q], and the id [method:name], all give the same statuses and
    messages on the same node: the qualifier is never compared with the
    file. *)
Theorem method_qualifier_ignored
        (fs : string -> option string)
        (resolve : string -> string -> string -> string)
        (q name : string) (n : Node) (root projectRoot : string) :
  JsString.all_chars (fun a => negb (Ascii.eqb a ".")) name = true ->
  map (fun r => (status r, message r))
      (verifyMethodNode fs resolve ("method:" ++ q ++ "." ++ name) n root
                        projectRoot)
  = map (fun r => (status r, message r))
        (verifyMethodNode fs resolve ("method:" ++ name) n root projectRoot).
Proof.
  intros Hname. unfold verifyMethodNode.
  destruct (resolveLoc resolve (loc n) root projectRoot) as [filePath line].
  rewrite !replace_prefix.
  change (q ++ "." ++ name) with (q ++ String "." name).
  rewrite (last_split_on_app "." q name Hname).
  rewrite (last_split_on_plain "." name Hname).
  repeat break_match; reflexivity.
Qed.

Lemma method_qualifier_ignored_witness :
  map (fun r => (status r, message r))
      (verifyMethodNode Examples.tree Examples.resolve
                        ("method:" ++ "NoSuchClass" ++ "." ++ "create")
                        (Examples.plain "method" "repository.ts:2")
                        "src/" "/proj")
  = map (fun r => (status r, message r))
        (verifyMethodNode Examples.tree Examples.resolve
                          ("method:" ++ "create")
                          (Examples.plain "method" "repository.ts:2")
                          "src/" "/proj").
Proof.
  apply (method_qualifier_ignored Examples.tree Examples.resolve
           "NoSuchClass" "create").
  reflexivity.
Defined.

(** ** Case of table names and of HTTP verbs *)

Lemma star_loop_ext (p : ascii -> bool)
      (k1 k2 : option ascii -> string -> bool) :
  (forall q s, k1 q s = k2 q s) ->
  forall prev s, Re.star_loop p k1 prev s = Re.star_loop p k2 prev s.
Proof.
  intros Hk prev s. revert prev.
  induction s as [|c s IH]; intros prev; cbn [Re.star_loop]; rewrite Hk.
  - reflexivity.
  - now rewrite IH.
Qed.

(** The matcher depends on its continuation only through its values. *)
Lemma matchk_ext (r : Re.re) :
  forall prev s (k1 k2 : option ascii -> string -> bool),
    (forall q s', k1 q s' = k2 q s') ->
    Re.matchk r prev s k1 = Re.matchk r prev s k2.
Proof.
  induction r as [|p|a IHa b IHb|a IHa b IHb|p|]; intros prev s k1 k2 Hk;
    cbn [Re.matchk].
  - apply Hk.
  - destruct s; [reflexivity|]. now rewrite Hk.
  - apply IHa. intros q s'. now apply IHb.
  - now rewrite (IHa prev s k1 k2 Hk), (IHb prev s k1 k2 Hk).
  - now apply star_loop_ext.
  - now rewrite Hk.
Qed.

Lemma search_ext (r1 r2 : Re.re) :
  (forall prev s,
      Re.matchk r1 prev s (fun _ _ => true)
      = Re.matchk r2 prev s (fun _ _ => true)) ->
  forall prev s, Re.search r1 prev s = Re.search r2 prev s.
Proof.
  intros H prev s. revert prev.
  induction s as [|c s IH]; intros prev; cbn [Re.search]; rewrite H.
  - reflexivity.
  - now rewrite IH.
Qed.

Lemma lit_ci_upper (n1 n2 : string) :
  upper_string n1 = upper_string n2 ->
  forall prev s k,
    Re.matchk (Re.lit_ci n1) prev s k = Re.matchk (Re.lit_ci n2) prev s k.
Proof.
  revert n2. induction n1 as [|a n1 IH]; intros [|b n2] Hup;
    try discriminate; [reflexivity|].
  cbn [upper_string] in Hup. injection Hup as Hab Hrest.
  intros prev s k. cbn [Re.lit_ci Re.matchk].
  destruct s as [|c s]; [reflexivity|].
  rewrite Hab. destruct (Ascii.eqb _ _); [|reflexivity].
  now apply IH.
Qed.

Lemma tablePattern_upper (n1 n2 src : string) :
  upper_string n1 = upper_string n2 ->
  has src (Patterns.tablePattern n1) = has src (Patterns.tablePattern n2).
Proof.
  intros Hup. unfold has, Patterns.tablePattern, Re.test.
  apply search_ext. intros prev s. cbn [Re.seqs Re.matchk].
  apply matchk_ext. intros q1 s1.
  apply matchk_ext. intros q2 s2.
  apply matchk_ext. intros q3 s3.
  now apply lit_ci_upper.
Qed.

(** X19: a table is looked for by name without regard to letter case.  Two
    table ids whose names differ only in the case of ASCII letters give the
    same statuses on the same node: [CREATE TABLE Tasks] satisfies
    [table:tasks]. *)
Theorem table_name_case_insensitive
        (fs : string -> option string)
        (resolve : string -> string -> string -> string)
        (n1 n2 : string) (n : Node) (root projectRoot : string) :
  upper_string n1 = upper_string n2 ->
  map status (verifyTableNode fs resolve ("table:" ++ n1) n root projectRoot)
  = map status
        (verifyTableNode fs resolve ("table:" ++ n2) n root projectRoot).
Proof.
  intros Hup. unfold verifyTableNode.
  destruct (resolveLoc resolve (loc n) root projectRoot) as [filePath line].
  destruct (falsy (readSource fs filePath)); [reflexivity|].
  rewrite !replace_prefix.
  rewrite (tablePattern_upper n1 n2 _ Hup).
  destruct (has _ (Patterns.tablePattern n2)); cbn [negb map status record];
    [|reflexivity].
  f_equal. destruct (fk n) as [fks|]; [|reflexivity].
  induction fks as [|f fks IH]; [reflexivity|].
  cbn [flat_map]. rewrite !map_app, IH. f_equal.
  repeat break_match; reflexivity.
Qed.

Lemma table_name_case_insensitive_witness :
  map status
      (verifyTableNode Examples.tree Examples.resolve ("table:" ++ "Tasks")
                       (Examples.plain "table" "schema.sql") "src/" "/proj")
  = map status
        (verifyTableNode Examples.tree Examples.resolve ("table:" ++ "tasks")
                         (Examples.plain "table" "schema.sql") "src/" "/proj").
Proof.
  apply (table_name_case_insensitive Examples.tree Examples.resolve
           "Tasks" "tasks").
  reflexivity.
Defined.

Lemma indexOf_app (c : ascii) (v rest : string) :
  JsString.all_chars (fun a => negb (Ascii.eqb a c)) v = true ->
  JsString.indexOf c (v ++ String c rest) = Some (String.length v).
Proof.
  induction v as [|a v IH]; cbn [JsString.all_chars]; intros H.
  - cbn. now rewrite Ascii.eqb_refl.
  - apply andb_true_iff in H as [Ha Hv].
    change (String a v ++ String c rest) with (String a (v ++ String c rest)).
    cbn [JsString.indexOf]. apply negb_true_iff in Ha. rewrite Ha.
    now rewrite (IH Hv).
Qed.

Lemma substring_length_app (v rest : string) :
  String.substring 0 (String.length v) (v ++ rest) = v.
Proof.
  induction v as [|a v IH].
  - now destruct rest.
  - cbn. now rewrite IH.
Qed.

Lemma drop_succ_length_app (c : ascii) (v rest : string) :
  JsString.drop (String.length v + 1) (v ++ String c rest) = rest.
Proof.
  induction v as [|a v IH]; [reflexivity | exact IH].
Qed.

(** X20: the HTTP verb of an endpoint id is compared in lower case.  Two
    endpoint ids with the same path whose verbs (without spaces) differ only
    in letter case give the same statuses and messages on the same node. *)
Theorem endpoint_verb_case_ignored
        (fs : string -> option string)
        (resolve : string -> string -> string -> string)
        (v1 v2 path : string) (n : Node) (root projectRoot : string) :
  JsString.all_chars (fun a => negb (Ascii.eqb a " ")) v1 = true ->
  JsString.all_chars (fun a => negb (Ascii.eqb a " ")) v2 = true ->
  JsString.toLowerCase v1 = JsString.toLowerCase v2 ->
  map (fun r => (status r, message r))
      (verifyEndpointNode fs resolve ("endpoint:" ++ v1 ++ " " ++ path) n root
                          projectRoot)
  = map (fun r => (status r, message r))
        (verifyEndpointNode fs resolve ("endpoint:" ++ v2 ++ " " ++ path) n
                            root projectRoot).
Proof.
  intros H1 H2 Hlow. unfold verifyEndpointNode.
  destruct (resolveLoc resolve (loc n) root projectRoot) as [filePath line].
  destruct (falsy (readSource fs filePath)); [reflexivity|].
  rewrite !replace_prefix.
  change (v1 ++ " " ++ path) with (v1 ++ String " " path).
  change (v2 ++ " " ++ path) with (v2 ++ String " " path).
  rewrite (indexOf_app " " v1 path H1), (indexOf_app " " v2 path H2).
  rewrite !substring_length_app, !drop_succ_length_app, Hlow.
  repeat break_match; reflexivity.
Qed.

Lemma endpoint_verb_case_ignored_witness :
  map (fun r => (status r, message r))
      (verifyEndpointNode Examples.tree Examples.resolve
                          ("endpoint:" ++ "POST" ++ " " ++ "/tasks")
                          (Examples.plain "endpoint" "repository.ts")
                          "src/" "/proj")
  = map (fun r => (status r, message r))
        (verifyEndpointNode Examples.tree Examples.resolve
                            ("endpoint:" ++ "post" ++ " " ++ "/tasks")
                            (Examples.plain "endpoint" "repository.ts")
                            "src/" "/proj").
Proof.
  apply (endpoint_verb_case_ignored Examples.tree Examples.resolve
           "POST" "post" "/tasks"); reflexivity.
Defined.

(** X21: an endpoint id without a space (no HTTP verb) is looked for as
    plain text.  With a readable file the node gets the single record PASS
    exactly when the id, after removing ["endpoint:"], occurs somewhere in
    the file, and FAIL otherwise; a declared line number plays no part. *)
Theorem endpoint_without_verb
        (fs : string -> option string)
        (resolve : string -> string -> string -> string)
        (i : string) (n : Node) (root projectRoot : string) :
  readable fs resolve n root projectRoot = true ->
  JsString.indexOf " " (JsString.replace "endpoint:" "" i) = None ->
  (map status (verifyEndpointNode fs resolve i n root projectRoot) = [PASS]
   <-> occurs (JsString.replace "endpoint:" "" i)
              (source_of fs resolve n root projectRoot))
  /\
  (~ occurs (JsString.replace "endpoint:" "" i)
            (source_of fs resolve n root projectRoot) ->
   map status (verifyEndpointNode fs resolve i n root projectRoot) = [FAIL]).
Proof.
  unfold readable, source_of, verifyEndpointNode. intros Hread Hidx.
  apply negb_true_iff in Hread.
  destruct (resolveLoc resolve (loc n) root projectRoot) as [filePath line].
  cbn [fst] in *. rewrite Hread, Hidx. cbn [has].
  rewrite <- includes_occurs.
  destruct (JsString.includes _ _); cbn [map status record].
  - split; [now split | intros H; now contradiction H].
  - split; [split; discriminate | reflexivity].
Qed.

Lemma endpoint_without_verb_witness :
  map status
      (verifyEndpointNode Examples.tree Examples.resolve "endpoint:/tasks"
                          (Examples.plain "endpoint" "repository.ts:1")
                          "src/" "/proj")
  = [FAIL].
Proof.
  apply (proj2 (endpoint_without_verb Examples.tree Examples.resolve
                  "endpoint:/tasks"
                  (Examples.plain "endpoint" "repository.ts:1")
                  "src/" "/proj" eq_refl eq_refl)).
  apply includes_false_not_occurs. reflexivity.
Defined.

(** ** Flows and the exit status *)

Lemma flow_reachability_never_fails (name : string) (fl : Flow) (r : Result) :
  In r (flow_reachability name fl) -> status r <> FAIL.
Proof.
  unfold flow_reachability. rewrite reach_step_fold. cbn [app andb].
  intros H.
  assert (Hw : In r (map (unreachable_warning name)
                         (violations_in fl (steps fl)))
               \/ r = record PASS flow name "All branch targets reachable").
  { destruct (is_nil (violations_in fl (steps fl))).
    - apply in_app_or in H as [H|[<-|[]]]; auto.
    - now left. }
  destruct Hw as [Hw| ->]; [|discriminate].
  apply in_map_iff in Hw as [entry [<- _]]. discriminate.
Qed.

(** X22: when no id that the existence checks look up is a property name
    every object inherits, the flow phase pushes no FAIL record exactly
    when, in every flow, every such id is in the node table.  Branch
    targets that are not steps of their flow only ever add WARN records, so
    they never change the exit status. *)
Theorem flows_fail_free (fls : obj Flow) (nds : obj Node) :
  forallb (fun entry => plain_names (checked_ids (snd entry))) fls = true ->
  (count_status FAIL (verifyFlows fls nds) = 0
   <-> forall name fl i,
       In (name, fl) fls -> In i (checked_ids fl) -> has_key nds i = true).
Proof.
  intros _. rewrite count_status_zero. unfold verifyFlows. split.
  - intros Hno name fl i Hin Hi.
    destruct (has_key nds i) eqn:E; [reflexivity|]. exfalso.
    apply (Hno (record FAIL flow name
                       ("Missing nodes: "
                          ++ JsString.join ", " (missing_ids nds fl))));
      [|reflexivity].
    apply in_flat_map. exists (name, fl). split; [exact Hin|].
    apply in_or_app. left.
    rewrite (flow_existence_fail nds name fl); [now left|].
    now exists i.
  - intros Hall r Hr. apply in_flat_map in Hr as [[name fl] [Hin Hr]].
    apply in_app_or in Hr as [Hr|Hr].
    + rewrite (flow_existence_pass nds name fl) in Hr
        by (intros i Hi; now apply (Hall name fl i)).
      destruct Hr as [<-|[]]. discriminate.
    + now apply flow_reachability_never_fails in Hr.
Qed.

Lemma flows_fail_free_witness :
  count_status FAIL
    (verifyFlows [("create-task", Examples.retry_flow)] Examples.two_nodes)
  = 0.
Proof.
  apply (proj2 (flows_fail_free [("create-task", Examples.retry_flow)]
                                Examples.two_nodes eq_refl)).
  intros name fl i [H|[]] Hi. injection H as <- <-.
  cbn in Hi. destruct Hi as [<-|[<-|[]]]; reflexivity.
Defined.

(** ** Line numbers in decimal *)

Lemma string_of_uint_digits (d : Decimal.uint) :
  JsString.all_chars JsString.is_digit (NilEmpty.string_of_uint d) = true.
Proof.
  induction d; cbn [NilEmpty.string_of_uint JsString.all_chars];
    try reflexivity; now rewrite IHd.
Qed.

Lemma parse_digits_of_uint (d : Decimal.uint) (acc : nat) :
  JsString.parse_digits acc (NilEmpty.string_of_uint d)
  = Nat.of_uint_acc d acc.
Proof.
  revert acc.
  induction d; intros acc;
    cbn [NilEmpty.string_of_uint JsString.parse_digits Nat.of_uint_acc];
    try reflexivity;
    match goal with
    | |- context [JsString.is_digit ?c] =>
        change (JsString.is_digit c) with true
    end;
    cbn iota; rewrite IHd, Nat.tail_mul_spec; f_equal;
    match goal with
    | |- context [nat_of_ascii ?c - 48] =>
        let v := eval vm_compute in (nat_of_ascii c - 48) in
        change (nat_of_ascii c - 48) with v
    end;
    lia.
Qed.

Lemma to_uint_not_nil (n : nat) : Nat.to_uint n <> Decimal.Nil.
Proof.
  intros H.
  assert (Hz : Nat.of_uint (Nat.to_uint n) = n) by apply DecimalNat.Unsigned.of_to.
  pose proof (DecimalNat.Unsigned.to_of (Nat.to_uint n)) as Hu.
  rewrite Hz in Hu. rewrite H in Hu. cbn in Hu.
  rewrite H in Hz. cbn in Hz. subst n. discriminate Hu.
Qed.

Lemma string_of_nat_numeric (n : nat) :
  JsString.is_numeric (JsString.string_of_nat n) = true.
Proof.
  unfold JsString.is_numeric, JsString.string_of_nat.
  rewrite string_of_uint_digits, andb_true_r.
  pose proof (to_uint_not_nil n) as Hn.
  destruct (Nat.to_uint n); try reflexivity. congruence.
Qed.

Lemma parseInt_string_of_nat (n : nat) :
  JsString.parseInt (JsString.string_of_nat n) = n.
Proof.
  unfold JsString.parseInt, JsString.string_of_nat.
  rewrite parse_digits_of_uint. apply DecimalNat.Unsigned.of_to.
Qed.

(** X23: a location written as a path, a colon and a line number in decimal
    resolves to that path and that number, for every path (colons included)
    and every number below 2^53, the range in which the numbers of the
    source are exact. *)
Theorem resolveLoc_decimal_line
        (resolve : string -> string -> string -> string)
        (p root projectRoot : string) (n : nat) :
  (N.of_nat n < 2 ^ 53)%N ->
  resolveLoc resolve (p ++ ":" ++ JsString.string_of_nat n) root projectRoot
  = (resolve projectRoot root p, Some n).
Proof.
  intros _. unfold resolveLoc.
  rewrite (locParts_line p _ (string_of_nat_numeric n)).
  rewrite (numeric_truthy _ (string_of_nat_numeric n)).
  now rewrite parseInt_string_of_nat.
Qed.

Lemma resolveLoc_decimal_line_witness :
  resolveLoc Examples.resolve ("C:/repo/service.ts" ++ ":" ++ "128")
             "src/" "/proj"
  = (Examples.resolve "/proj" "src/" "C:/repo/service.ts", Some 128).
Proof.
  apply (resolveLoc_decimal_line Examples.resolve "C:/repo/service.ts"
           "src/" "/proj" 128).
  reflexivity.
Defined.

(** ** Diagram ids and labels *)

Lemma sanitize_char_plain (c : ascii) :
  Render.is_special (if Render.is_special c then "_"%char else c) = false.
Proof.
  destruct (Render.is_special c) eqn:E; [reflexivity | exact E].
Qed.

(** X24: [sanitizeMermaidId] keeps the length of an id, leaves none of the
    five characters colon, dot, slash, space and hyphen in it, and is
    idempotent; it is the identity exactly on ids without those
    characters.  So an id that has such a character (every [kind:name] id
    does) and its own sanitised form are two different ids with the same
    diagram id. *)
Theorem sanitizeMermaidId_spec (s : string) :
  String.length (Render.sanitizeMermaidId s) = String.length s
  /\ JsString.all_chars (fun c => negb (Render.is_special c))
                        (Render.sanitizeMermaidId s) = true
  /\ Render.sanitizeMermaidId (Render.sanitizeMermaidId s)
     = Render.sanitizeMermaidId s
  /\ (Render.sanitizeMermaidId s = s
      <-> JsString.all_chars (fun c => negb (Render.is_special c)) s = true).
Proof.
  induction s as [|c s [IHlen [IHall [IHidem IHid]]]].
  - repeat split; reflexivity.
  - cbn [Render.sanitizeMermaidId String.length JsString.all_chars].
    rewrite IHlen, IHall, IHidem, sanitize_char_plain.
    split; [reflexivity|]. split; [reflexivity|]. split; [reflexivity|].
    destruct (Render.is_special c) eqn:E; cbn [negb andb].
    + split; [|discriminate]. intros H. injection H as Hc _.
      subst c. discriminate E.
    + rewrite <- IHid. split; [intros H; now injection H | now intros ->].
Qed.

(** X25: [shortLabel] removes the kind prefix of an id and nothing else: a
    non-empty colon-free head followed by a colon is dropped, whatever
    follows (further colons included); an id without a colon, or one that
    starts with a colon, is returned unchanged. *)
Theorem shortLabel_spec :
  (forall k rest,
      k <> "" ->
      JsString.all_chars (fun a => negb (Ascii.eqb a ":")) k = true ->
      Render.shortLabel (k ++ ":" ++ rest) = rest)
  /\ (forall s,
         JsString.all_chars (fun a => negb (Ascii.eqb a ":")) s = true ->
         Render.shortLabel s = s)
  /\ (forall rest, Render.shortLabel (":" ++ rest) = ":" ++ rest).
Proof.
  unfold Render.shortLabel. split; [|split].
  - intros k rest Hne Hk.
    change (k ++ ":" ++ rest) with (k ++ String ":" rest).
    rewrite (indexOf_app ":" k rest Hk).
    destruct k as [|a k]; [congruence|].
    cbn [String.length].
    replace (S (S (String.length k))) with (String.length (String a k) + 1)
      by (cbn [String.length]; lia).
    apply drop_succ_length_app.
  - intros s Hs.
    assert (Hnone : JsString.indexOf ":" s = None).
    { induction s as [|a s IH]; [reflexivity|].
      cbn [JsString.all_chars] in Hs. apply andb_true_iff in Hs as [Ha Hs].
      cbn [JsString.indexOf]. apply negb_true_iff in Ha.
      now rewrite Ha, (IH Hs). }
    now rewrite Hnone.
  - intros rest. reflexivity.
Qed.

Lemma shortLabel_spec_witness :
  Render.shortLabel ("endpoint" ++ ":" ++ "GET /a:b") = "GET /a:b".
Proof.
  apply (proj1 shortLabel_spec "endpoint" "GET /a:b").
  - discriminate.
  - reflexivity.
Defined.

(** ** Grouping nodes by kind *)

Lemma group_push_get (kind i : string) (groups : obj (list string))
      (k : string) :
  obj_get (Render.group_push kind i groups) k
  = if String.eqb kind k
    then Some (match obj_get groups kind with
               | Some ids => ids
               | None => []
               end ++ [i])%list
    else obj_get groups k.
Proof.
  induction groups as [|[k0 ids] groups IH]; cbn [Render.group_push obj_get].
  - destruct (String.eqb kind k); reflexivity.
  - destruct (String.eqb_spec k0 kind) as [->|Hne]; cbn [obj_get].
    + destruct (String.eqb kind k); reflexivity.
    + rewrite IH. destruct (String.eqb_spec k0 k) as [->|Hne'].
      * destruct (String.eqb_spec kind k) as [->|_]; [congruence|reflexivity].
      * reflexivity.
Qed.

Lemma group_push_keys (kind i : string) (groups : obj (list string)) :
  keys (Render.group_push kind i groups)
  = if has_key groups kind then keys groups
    else (keys groups ++ [kind])%list.
Proof.
  unfold has_key, keys.
  induction groups as [|[k0 ids] groups IH];
    cbn [Render.group_push obj_get map fst]; [reflexivity|].
  destruct (String.eqb k0 kind); cbn [map fst app]; [reflexivity|].
  rewrite IH. now destruct (obj_get groups kind).
Qed.

Lemma has_key_In {V : Type} (o : obj V) (k : string) :
  has_key o k = true <-> In k (keys o).
Proof.
  unfold has_key, keys. induction o as [|[k0 v] o IH]; cbn [obj_get map fst In].
  - split; [discriminate | intros []].
  - destruct (String.eqb_spec k0 k) as [->|Hne].
    + split; auto.
    + rewrite IH. split; [now right | intros [H|H]; [congruence | exact H]].
Qed.

Lemma group_fold_spec (processed : obj Node) :
  let groups :=
    fold_left (fun g entry =>
                 Render.group_push (kind (snd entry)) (fst entry) g)
              processed [] in
  NoDup (keys groups)
  /\ forall k,
      obj_get groups k
      = match filter (fun entry => String.eqb (kind (snd entry)) k) processed
        with
        | [] => None
        | l => Some (map fst l)
        end.
Proof.
  induction processed as [|[i n] processed IH] using rev_ind.
  - split; [constructor | reflexivity].
  - cbn zeta in *. rewrite fold_left_app. cbn [fold_left fst snd].
    destruct IH as [IHnd IHget]. split.
    + rewrite group_push_keys.
      destruct (has_key _ (kind n)) eqn:E; [exact IHnd|].
      apply NoDup_app; [exact IHnd | repeat constructor; intros [] |].
      intros k Hin [<-|[]]. apply has_key_In in Hin. congruence.
    + intros k. rewrite group_push_get, filter_app, IHget. cbn [filter snd].
      destruct (String.eqb_spec (kind n) k) as [->|Hne].
      * destruct (filter _ processed) as [|e l]; [reflexivity|].
        simpl. now rewrite map_app.
      * rewrite app_nil_r. apply IHget.
Qed.

(** X26: when no node's kind is a property name every object inherits, the
    groups of the dependency diagram partition the node table.  Each kind
    that occurs is one group, no kind is two groups, and the group of a kind
    lists exactly the ids of the nodes of that kind, each once, in document
    order. *)
Theorem group_by_kind_partition (nds : obj Node) :
  plain_names (map (fun entry => kind (snd entry)) nds) = true ->
  NoDup (keys (Render.group_by_kind nds))
  /\ forall k,
      obj_get (Render.group_by_kind nds) k
      = match filter (fun entry => String.eqb (kind (snd entry)) k) nds with
        | [] => None
        | l => Some (map fst l)
        end.
Proof.
  intros _. exact (group_fold_spec nds).
Qed.

Lemma group_by_kind_partition_witness :
  NoDup (keys (Render.group_by_kind MoreExamples.nds))
  /\ obj_get (Render.group_by_kind MoreExamples.nds) "constructor" = None.
Proof.
  destruct (group_by_kind_partition MoreExamples.nds eq_refl) as [Hnd Hget].
  split; [exact Hnd | exact (Hget "constructor")].
Defined.

(** ** Arguments of the verify command *)

Lemma cli_indexOf_none (x : string) (l : list string) :
  ~ In x l -> Cli.indexOf x l = None.
Proof.
  induction l as [|y l IH]; [reflexivity|]. intros Hno.
  cbn [Cli.indexOf]. destruct (String.eqb_spec y x) as [->|_].
  - exfalso. apply Hno. now left.
  - rewrite IH; [reflexivity|]. intros H. apply Hno. now right.
Qed.

Lemma cli_indexOf_lt (x : string) (l : list string) (k : nat) :
  Cli.indexOf x l = Some k -> k < List.length l.
Proof.
  revert k. induction l as [|y l IH]; intros k; cbn [Cli.indexOf];
    [discriminate|].
  destruct (String.eqb y x).
  - intros H. injection H as <-. simpl. lia.
  - destruct (Cli.indexOf x l) as [j|]; [|discriminate].
    intros H. injection H as <-. specialize (IH j eq_refl). simpl. lia.
Qed.

Lemma cli_indexOf_in (x : string) (l : list string) :
  In x l -> exists k, Cli.indexOf x l = Some k.
Proof.
  induction l as [|y l IH]; [intros []|]. intros Hin.
  cbn [Cli.indexOf]. destruct (String.eqb_spec y x) as [->|Hne].
  - now exists 0.
  - destruct Hin as [H|H]; [congruence|].
    destruct (IH H) as [k Hk]. rewrite Hk. now exists (S k).
Qed.

Lemma cli_indexOf_app_in (x : string) (pre l : list string) :
  In x pre -> Cli.indexOf x (pre ++ l) = Cli.indexOf x pre.
Proof.
  induction pre as [|y pre IH]; [intros []|]. intros Hin.
  simpl. destruct (String.eqb_spec y x) as [->|Hne].
  - reflexivity.
  - destruct Hin as [H|H]; [congruence|]. now rewrite IH.
Qed.

Lemma cli_indexOf_app_notin (x : string) (pre l : list string) :
  ~ In x pre ->
  Cli.indexOf x (pre ++ l)
  = option_map (fun k => List.length pre + k) (Cli.indexOf x l).
Proof.
  induction pre as [|y pre IH]; intros Hno.
  - cbn. now destruct (Cli.indexOf x l).
  - simpl. destruct (String.eqb_spec y x) as [->|Hne].
    + exfalso. apply Hno. now left.
    + rewrite IH by (intros H; apply Hno; now right).
      now destruct (Cli.indexOf x l).
Qed.

Lemma find_ext {A : Type} (f g : A -> bool) (l : list A) :
  (forall a, f a = g a) -> find f l = find g l.
Proof.
  intros H. induction l as [|a l IH]; [reflexivity|].
  cbn [find]. now rewrite H, IH.
Qed.

Lemma find_skip_two {A : Type} (f : A -> bool) (pre post : list A) (a b : A) :
  f a = false -> f b = false ->
  find f (pre ++ a :: b :: post) = find f (pre ++ post).
Proof.
  intros Ha Hb. induction pre as [|x pre IH].
  - simpl. now rewrite Ha, Hb.
  - simpl. now rewrite IH.
Qed.

(** X27: without [--impact] among its arguments (or with [--impact] as the
    last argument, with no node id after it) the verify command runs the
    full verification; the flag without an id is silently ignored.  Without
    the flag, the file is the first argument that does not start with two
    hyphens. *)
Theorem verify_mode_without_node_id (verifyArgs : list string) :
  ~ In "--impact" verifyArgs ->
  Cli.mode verifyArgs = Cli.RunVerification
  /\ Cli.explicitFile verifyArgs
     = find (fun a => negb (prefix "--" a)) verifyArgs
  /\ Cli.mode (verifyArgs ++ ["--impact"]) = Cli.RunVerification.
Proof.
  intros Hno. unfold Cli.mode, Cli.impactNode, Cli.explicitFile, Cli.impactIdx.
  rewrite (cli_indexOf_none _ _ Hno). split; [reflexivity|]. split.
  - apply find_ext. intros a. apply andb_true_r.
  - rewrite (cli_indexOf_app_notin _ _ ["--impact"] Hno). cbn.
    rewrite nth_error_app2 by lia.
    replace (List.length verifyArgs + 0 + 1 - List.length verifyArgs)
      with 1 by lia.
    reflexivity.
Qed.

Lemma verify_mode_without_node_id_witness :
  Cli.mode ["my.flowgraph.json"] = Cli.RunVerification
  /\ Cli.explicitFile ["my.flowgraph.json"]
     = find (fun a => negb (prefix "--" a)) ["my.flowgraph.json"]
  /\ Cli.mode (["my.flowgraph.json"] ++ ["--impact"]) = Cli.RunVerification.
Proof.
  apply (verify_mode_without_node_id ["my.flowgraph.json"]).
  intros [H|[]]. discriminate H.
Defined.

(** X28: with [--impact] followed by a non-empty node id, where neither
    the flag nor the id occurs earlier, the verify command runs the impact
    analysis for that id, and the file is the first other argument that
    does not start with two hyphens and differs from the node id: an
    argument equal to the node id is never taken as the file. *)
Theorem verify_mode_with_node_id (pre post : list string) (nodeId : string) :
  ~ In "--impact" pre ->
  ~ In nodeId pre ->
  nodeId <> "" ->
  Cli.mode (pre ++ "--impact" :: nodeId :: post) = Cli.RunImpact nodeId
  /\ Cli.explicitFile (pre ++ "--impact" :: nodeId :: post)
     = find (fun a => negb (prefix "--" a) && negb (String.eqb a nodeId))
            (pre ++ post).
Proof.
  intros Hflag Hid Hne.
  assert (Hidx : Cli.indexOf "--impact" (pre ++ "--impact" :: nodeId :: post)
                 = Some (List.length pre)).
  { rewrite (cli_indexOf_app_notin _ _ _ Hflag). cbn. f_equal. lia. }
  unfold Cli.mode, Cli.impactNode, Cli.explicitFile, Cli.impactIdx.
  rewrite Hidx. split.
  - rewrite nth_error_app2 by lia.
    replace (List.length pre + 1 - List.length pre) with 1 by lia.
    cbn [nth_error]. unfold JsString.truthy.
    destruct (String.eqb_spec nodeId ""); [congruence | reflexivity].
  - rewrite <- (find_skip_two
                  (fun a => negb (prefix "--" a)
                            && negb (String.eqb a nodeId))
                  pre post "--impact" nodeId)
      by (cbn; try reflexivity; rewrite String.eqb_refl; apply andb_false_r).
    apply find_ext. intros a.
    destruct (prefix "--" a) eqn:Hp; [reflexivity|]. cbn [negb andb].
    f_equal.
    destruct (in_dec string_dec a pre) as [Hin|Hnin].
    + rewrite (cli_indexOf_app_in _ _ _ Hin).
      destruct (cli_indexOf_in _ _ Hin) as [k Hk]. rewrite Hk.
      pose proof (cli_indexOf_lt _ _ _ Hk) as Hlt. cbn [Cli.opt_nat_eqb].
      destruct (String.eqb_spec a nodeId) as [->|_]; [contradiction|].
      apply Nat.eqb_neq. lia.
    + rewrite (cli_indexOf_app_notin _ _ _ Hnin). cbn [Cli.indexOf].
      destruct (String.eqb_spec "--impact" a) as [<-|_]; [discriminate Hp|].
      rewrite String.eqb_sym.
      destruct (String.eqb_spec a nodeId) as [->|Hd].
      * cbn. apply Nat.eqb_eq. lia.
      * destruct (Cli.indexOf a post) as [j|]; cbn; [|reflexivity].
        apply Nat.eqb_neq. lia.
Qed.

Lemma verify_mode_with_node_id_witness :
  Cli.mode (["my.flowgraph.json"] ++ "--impact" :: "table:tasks" :: [])
  = Cli.RunImpact "table:tasks"
  /\ Cli.explicitFile
       (["my.flowgraph.json"] ++ "--impact" :: "table:tasks" :: [])
     = find (fun a => negb (prefix "--" a)
                      && negb (String.eqb a "table:tasks"))
            (["my.flowgraph.json"] ++ []).
Proof.
  apply (verify_mode_with_node_id ["my.flowgraph.json"] [] "table:tasks").
  - intros [H|[]]. discriminate H.
  - intros [H|[]]. discriminate H.
  - discriminate.
Defined.
